(** * mp3_downloader: resolution-and-download pipeline

    A shallow embedding of [src/mp3_downloader.py] (fetch, classify,
    extract candidates, retry candidates, archive fallback, file name
    derivation and collision-safe persistence) and the properties of it
    that the specification states.

    - Python strings are [string]s of 8-bit characters; [str.lower] acts
      on the ASCII letters, which is all the suffix and substring tests of
      the program can see.
    - A Python exception is a value of [exn]; a call ends in a [result].
    - The file system and the history of requests form a [world] that is
      threaded through the calls by a state and exception monad.
    - Library calls whose code is not part of the repository are fields of
      a record: the HTML parser and [urljoin] ([HtmlLib]), [urlparse],
      [unquote], the HTTP client and the failures of the operating system
      ([Env]).  The parser, [urljoin], [urlparse] and [unquote] are taken
      to return; [requests.get], [os.makedirs], [open] and [write] may
      raise.  A response that was received is read without error.
    - [print] is left out: console output carries no meaning. *)

From Stdlib Require Import Bool Ascii String List Arith PeanoNat ZArith Lia.
From Stdlib Require Import Permutation Sorted DecimalString DecimalNat.
Import ListNotations.

Local Set Warnings "-register-all".
Local Open Scope string_scope.
Local Open Scope list_scope.

(** ** Python string primitives *)

Module Py.

(** The double quote character and the one-character string made of it. *)
Definition dquote_char : ascii := "034"%char.
Definition dquote : string := String dquote_char EmptyString.
Definition squote_char : ascii := "'"%char.
Definition newline_char : ascii := "010"%char.

(** [str.lower] on the ASCII letters. *)
Definition lower_char (c : ascii) : ascii :=
  let n := nat_of_ascii c in
  if ((65 <=? n) && (n <=? 90))%nat then ascii_of_nat (n + 32) else c.

Fixpoint lower (s : string) : string :=
  match s with
  | EmptyString => EmptyString
  | String c s' => String (lower_char c) (lower s')
  end.

(** [s.startswith(p)] *)
Definition startswith (s p : string) : bool := String.prefix p s.

(** [s.endswith(suf)] *)
Definition endswith (s suf : string) : bool :=
  let n := String.length s in
  let m := String.length suf in
  (m <=? n)%nat && (substring (n - m) m s =? suf).

(** [needle in hay] *)
Fixpoint contains (needle hay : string) : bool :=
  String.prefix needle hay ||
  match hay with
  | EmptyString => false
  | String _ hay' => contains needle hay'
  end.

(** [c in s] for a single character *)
Fixpoint has_char (c : ascii) (s : string) : bool :=
  match s with
  | EmptyString => false
  | String d s' => (c =? d)%char || has_char c s'
  end.

(** Truthiness of a string ([if s:]) and of an optional string
    ([None] and the empty string are falsy). *)
Definition nonempty (s : string) : bool := negb (s =? "").

Definition truthy (o : option string) : bool :=
  match o with
  | Some s => nonempty s
  | None => false
  end.

(** [s.strip(c)] for a one-character set: every leading and trailing [c]
    goes. *)
Fixpoint lstrip (c : ascii) (s : string) : string :=
  match s with
  | EmptyString => EmptyString
  | String d s' => if (c =? d)%char then lstrip c s' else s
  end.

Fixpoint rstrip (c : ascii) (s : string) : string :=
  match s with
  | EmptyString => EmptyString
  | String d s' =>
      match rstrip c s' with
      | EmptyString => if (c =? d)%char then EmptyString else String d EmptyString
      | r => String d r
      end
  end.

Definition strip (c : ascii) (s : string) : string := rstrip c (lstrip c s).

(** The longest prefix of [s] whose characters satisfy [p]. *)
Fixpoint take_while (p : ascii -> bool) (s : string) : string :=
  match s with
  | EmptyString => EmptyString
  | String c s' => if p c then String c (take_while p s') else EmptyString
  end.

(** [\s] of the [re] module on the characters below 256. *)
Definition is_space (c : ascii) : bool :=
  let n := nat_of_ascii c in
  (((9 <=? n) && (n <=? 13)) || ((28 <=? n) && (n <=? 32))
   || (n =? 133) || (n =? 160))%nat.

(** [str(n)] for a natural number: its decimal digits. *)
Definition str_of_nat (n : nat) : string :=
  NilEmpty.string_of_uint (Nat.to_uint n).

End Py.

(** ** [is_audio_url] *)

Definition audio_exts : list string :=
  [".mp3"; ".wav"; ".m4a"; ".ogg"; ".flac"; ".aac"; ".wma"].

Definition is_audio_url (url : string) : bool :=
  existsb (fun e => Py.endswith (Py.lower url) e) audio_exts.

(** The sort key of [find_audio_on_page] tests this. *)
Definition ends_mp3 (x : string) : bool := Py.endswith (Py.lower x) ".mp3".

(** ** The parsed document

    What [BeautifulSoup(html, 'html.parser')] returns, as far as the
    program looks at it: elements with a name, attributes and child
    elements. *)

Inductive tag : Type :=
| Tag (name : string) (attrs : list (string * string)) (children : list tag).

Definition soup : Type := list tag.

Definition tag_name (t : tag) : string := let 'Tag n _ _ := t in n.
Definition tag_attrs (t : tag) : list (string * string) := let 'Tag _ a _ := t in a.

(** [t.get(k)] *)
Fixpoint attr_get (attrs : list (string * string)) (k : string) : option string :=
  match attrs with
  | [] => None
  | (k', v) :: rest => if (k' =? k) then Some v else attr_get rest k
  end.

Definition tag_get (t : tag) (k : string) : option string :=
  attr_get (tag_attrs t) k.

(** The elements below [t], in document order. *)
Fixpoint descendants (t : tag) : list tag :=
  match t with
  | Tag _ _ cs =>
      (fix go (l : list tag) : list tag :=
         match l with
         | [] => []
         | c :: l' => c :: descendants c ++ go l'
         end) cs
  end.

Definition all_tags (doc : soup) : list tag :=
  flat_map (fun t => t :: descendants t) doc.

(** [soup.find_all(name)] and [t.find_all(name)] *)
Definition find_all (doc : soup) (name : string) : list tag :=
  filter (fun t => tag_name t =? name) (all_tags doc).

Definition tag_find_all (t : tag) (name : string) : list tag :=
  filter (fun c => tag_name c =? name) (descendants t).

(** [soup.find_all(name, attr=True)] *)
Definition find_all_with (doc : soup) (name attr : string) : list tag :=
  filter (fun t => match tag_get t attr with Some _ => true | None => false end)
         (find_all doc name).

(** ** The text scan of strategy 5

    [re.findall] of the pattern [https?://C+\.mp3] on [html_content],
    where the class [C] is every character but white space, the double
    quote and the backslash. *)

Definition url_char (c : ascii) : bool :=
  negb (Py.is_space c || (c =? Py.dquote_char)%char || (c =? "\")%char).

(** The longest prefix of [run] that is at least one character followed
    by [.mp3]: where the greedy [+] stops after backtracking. *)
Fixpoint longest_mp3_prefix (run : string) : option string :=
  match run with
  | EmptyString => None
  | String c rest =>
      match longest_mp3_prefix rest with
      | Some m => Some (String c m)
      | None => if String.prefix ".mp3" rest then Some (String c ".mp3") else None
      end
  end.

Definition strip_scheme (s : string) : option (string * string) :=
  if String.prefix "https://" s then Some ("https://", substring 8 (String.length s - 8) s)
  else if String.prefix "http://" s then Some ("http://", substring 7 (String.length s - 7) s)
  else None.

(** The match that starts at the first character of [s], if any. *)
Definition match_mp3_url (s : string) : option string :=
  match strip_scheme s with
  | Some (scheme, rest) =>
      option_map (append scheme) (longest_mp3_prefix (Py.take_while url_char rest))
  | None => None
  end.

(** Matches from left to right, not overlapping: [skip] characters of the
    last match are still to be passed. *)
Fixpoint findall_from (skip : nat) (s : string) : list string :=
  match s with
  | EmptyString => []
  | String _ s' =>
      match skip with
      | S k => findall_from k s'
      | O =>
          match match_mp3_url s with
          | Some m => m :: findall_from (String.length m - 1) s'
          | None => findall_from 0 s'
          end
      end
  end.

Definition findall_mp3_urls (html_content : string) : list string :=
  findall_from 0 html_content.

(** ** [list.sort(key=...)]: a stable sort

    Insertion from the right, each element placed before the first one
    whose key is not smaller: equal keys keep their order. *)

Section Sort.
Context {A : Type} (key : A -> nat).

Fixpoint insert_by_key (x : A) (l : list A) : list A :=
  match l with
  | [] => [x]
  | y :: l' => if (key x <=? key y)%nat then x :: l else y :: insert_by_key x l'
  end.

Fixpoint sort_by_key (l : list A) : list A :=
  match l with
  | [] => []
  | x :: l' => insert_by_key x (sort_by_key l')
  end.
End Sort.

(** ** [find_audio_on_page] *)

(** The libraries the extractor calls. *)
Record HtmlLib : Type := {
  BeautifulSoup : string -> soup;        (* BeautifulSoup(html, 'html.parser') *)
  urljoin : string -> string -> string   (* urllib.parse.urljoin *)
}.

Definition if_truthy (o : option string) : list string :=
  match o with
  | Some s => if Py.nonempty s then [s] else []
  | None => []
  end.

Definition og_audio_properties : list string :=
  ["og:audio"; "og:audio:url"; "og:audio:secure_url"].

Definition twitter_audio_names : list string :=
  ["twitter:player:stream"; "twitter:audio:partner"].

(** [v in keys] where [v] may be [None] *)
Definition opt_in (v : option string) (keys : list string) : bool :=
  match v with
  | Some s => existsb (String.eqb s) keys
  | None => false
  end.

(** 1. <audio> tags *)
Definition audio_tag_candidates (doc : soup) : list string :=
  flat_map (fun audio =>
              if_truthy (tag_get audio "src")
              ++ flat_map (fun source => if_truthy (tag_get source "src"))
                          (tag_find_all audio "source"))
           (find_all doc "audio").

(** 2. <a> tags with audio extensions *)
Definition anchor_candidates (doc : soup) : list string :=
  flat_map (fun a =>
              match tag_get a "href" with
              | Some href => if is_audio_url href then [href] else []
              | None => []
              end)
           (find_all_with doc "a" "href").

(** 3. <source> tags generic *)
Definition source_candidates (doc : soup) : list string :=
  flat_map (fun source =>
              match tag_get source "src" with
              | Some src => if is_audio_url src then [src] else []
              | None => []
              end)
           (find_all_with doc "source" "src").

(** 4. Meta tags (Open Graph / Twitter) *)
Definition meta_candidates (doc : soup) : list string :=
  flat_map (fun meta =>
              if opt_in (tag_get meta "property") og_audio_properties
                 || opt_in (tag_get meta "name") twitter_audio_names
              then if_truthy (tag_get meta "content")
              else [])
           (find_all doc "meta").

(** [r not in seen] with [seen] the set of the URLs kept so far *)
Fixpoint unique_from (seen : list string) (resolved : list string) : list string :=
  match resolved with
  | [] => []
  | r :: rest =>
      if existsb (String.eqb r) seen then unique_from seen rest
      else r :: unique_from (r :: seen) rest
  end.

Definition mp3_key (x : string) : nat := if ends_mp3 x then 0 else 1.

Section Extractor.
Variable lib : HtmlLib.

(** The working list after strategies 1 to 5. *)
Definition candidates (html_content : string) : list string :=
  let doc := BeautifulSoup lib html_content in
  audio_tag_candidates doc
  ++ anchor_candidates doc
  ++ source_candidates doc
  ++ meta_candidates doc
  ++ findall_mp3_urls html_content.

(** Resolve relative URLs ([if not c: continue]). *)
Definition resolved (html_content base_url : string) : list string :=
  map (urljoin lib base_url) (filter Py.nonempty (candidates html_content)).

(** The list [unique] before it is sorted: the discovery order. *)
Definition discovered (html_content base_url : string) : list string :=
  unique_from [] (resolved html_content base_url).

Definition find_audio_on_page (html_content base_url : string) : list string :=
  sort_by_key mp3_key (discovered html_content base_url).
End Extractor.

(** What "first occurrence wins, order preserved" asks of a list: an
    element is kept exactly where nothing equal to it comes [before]. *)
Fixpoint first_occurrences (before l : list string) : list string :=
  match l with
  | [] => []
  | r :: rest =>
      (if in_dec string_dec r before then [] else [r])
      ++ first_occurrences (before ++ [r]) rest
  end.

(** ** Paths ([os.path], POSIX flavour) *)

Module Path.

(** [s.rfind(c)], [-1] when [c] does not occur. *)
Fixpoint rfind_from (i : Z) (c : ascii) (s : string) : Z :=
  match s with
  | EmptyString => (-1)%Z
  | String d s' =>
      let r := rfind_from (i + 1) c s' in
      if (0 <=? r)%Z then r else if (c =? d)%char then i else (-1)%Z
  end.

Definition rfind (c : ascii) (s : string) : Z := rfind_from 0 c s.

(** [p[i:]] and [p[:i]] for an index [0 <= i]. *)
Definition slice_from (i : Z) (p : string) : string :=
  substring (Z.to_nat i) (String.length p - Z.to_nat i) p.

Definition slice_to (i : Z) (p : string) : string :=
  substring 0 (Z.to_nat i) p.

(** [os.path.basename(p)]: [p[p.rfind('/') + 1:]] *)
Definition basename (p : string) : string := slice_from (rfind "/" p + 1) p.

(** [os.path.join(a, b)] *)
Definition join (a b : string) : string :=
  if Py.startswith b "/" then b
  else if (a =? "") || Py.endswith a "/" then a ++ b
  else a ++ "/" ++ b.

(** Is some character of [p] at an index in [lo, hi) not a dot? *)
Definition non_dot_between (lo hi : Z) (p : string) : bool :=
  negb (forallb (fun c => (c =? ".")%char)
          (list_ascii_of_string
             (substring (Z.to_nat lo) (Z.to_nat hi - Z.to_nat lo) p))).

(** [os.path.splitext(p)]: the extension starts at the last dot of the last
    path component, leading dots of the component not counted. *)
Definition splitext (p : string) : string * string :=
  let sepIndex := rfind "/" p in
  let dotIndex := rfind "." p in
  if (sepIndex <? dotIndex)%Z && non_dot_between (sepIndex + 1) dotIndex p
  then (slice_to dotIndex p, slice_from dotIndex p)
  else (p, "").

End Path.

(** ** File names *)

(** [re.findall('filename=(.+)', cd)]: the group runs to the end of the
    line; matches do not overlap. *)
Definition match_filename (s : string) : option string :=
  if String.prefix "filename=" s then
    let g := Py.take_while (fun c => negb (c =? Py.newline_char)%char)
                           (substring 9 (String.length s - 9) s) in
    if Py.nonempty g then Some g else None
  else None.

Fixpoint findall_filename_from (skip : nat) (s : string) : list string :=
  match s with
  | EmptyString => []
  | String _ s' =>
      match skip with
      | S k => findall_filename_from k s'
      | O =>
          match match_filename s with
          | Some g => g :: findall_filename_from (9 + String.length g - 1) s'
          | None => findall_filename_from 0 s'
          end
      end
  end.

Definition findall_filename (cd : string) : list string :=
  findall_filename_from 0 cd.

(** Get filename from content-disposition *)
Definition get_filename_from_cd (cd : option string) : option string :=
  if negb (Py.truthy cd) then None
  else
    match findall_filename (match cd with Some c => c | None => "" end) with
    | [] => None
    | f :: _ => Some (Py.strip Py.squote_char (Py.strip Py.dquote_char f))
    end.

(** Sanitize filename: the characters of [\ / * ? : double-quote < > |] go. *)
Definition forbidden_chars : list ascii :=
  ["\"; "/"; "*"; "?"; ":"; Py.dquote_char; "<"; ">"; "|"]%char.

Fixpoint clean_filename (filename : string) : string :=
  match filename with
  | EmptyString => EmptyString
  | String c s' =>
      if existsb (Ascii.eqb c) forbidden_chars then clean_filename s'
      else String c (clean_filename s')
  end.

(** Try to guess from content-type *)
Definition guessed_ext (content_type : string) : string :=
  if Py.contains "wav" content_type then ".wav"
  else if Py.contains "ogg" content_type then ".ogg"
  else ".mp3".

(** [int(s)] accepts an optional sign and decimal digits, single
    underscores between digits, white space around. *)
Definition is_digit (c : ascii) : bool :=
  let n := nat_of_ascii c in ((48 <=? n) && (n <=? 57))%nat.

Fixpoint digits_ok (after_digit : bool) (s : string) : bool :=
  match s with
  | EmptyString => after_digit
  | String c s' =>
      if is_digit c then digits_ok true s'
      else if (c =? "_")%char then after_digit && digits_ok false s'
      else false
  end.

Fixpoint drop_while (p : ascii -> bool) (s : string) : string :=
  match s with
  | EmptyString => EmptyString
  | String c s' => if p c then drop_while p s' else s
  end.

Fixpoint string_rev (s : string) : string :=
  match s with
  | EmptyString => EmptyString
  | String c s' => (string_rev s' ++ String c EmptyString)%string
  end.

Definition strip_space (s : string) : string :=
  string_rev (drop_while Py.is_space (string_rev (drop_while Py.is_space s))).

Definition int_parses (s : string) : bool :=
  match strip_space s with
  | String c s' => if ((c =? "+") || (c =? "-"))%char then digits_ok false s'
                   else digits_ok false (String c s')
  | EmptyString => false
  end.

(** ** JSON values, which are the Python values [r.json()] returns;
    [JNull] is [None] *)

Inductive json : Type :=
| JNull
| JBool (b : bool)
| JNum (n : Z)
| JStr (s : string)
| JList (l : list json)
| JDict (d : list (string * json)).

Definition json_truthy (v : json) : bool :=
  match v with
  | JNull => false
  | JBool b => b
  | JNum n => negb (n =? 0)%Z
  | JStr s => Py.nonempty s
  | JList l => match l with [] => false | _ => true end
  | JDict d => match d with [] => false | _ => true end
  end.

Fixpoint dict_lookup (d : list (string * json)) (k : string) : option json :=
  match d with
  | [] => None
  | (k', v) :: rest => if (k' =? k) then Some v else dict_lookup rest k
  end.

(** ** Exceptions and results *)

Inductive fs_op : Type :=
| OpMakedirs (path : string)
| OpOpen (path : string)
| OpWrite (path : string) (chunk : string).

Inductive exn : Type :=
| RequestException            (* requests.get failed: connection, timeout, bad URL *)
| HTTPError (status : Z)      (* raise_for_status *)
| OSError (op : fs_op)        (* the operating system refused [op] *)
| ValueError
| JSONDecodeError
| AttributeError
| KeyError
| TypeError.

(** How a call ends: it returns, it raises, or the model ran out of fuel
    before it ended. *)
Inductive result (A : Type) : Type :=
| Ok (a : A)
| Raise (e : exn)
| Diverged.
Arguments Ok {A} a.
Arguments Raise {A} e.
Arguments Diverged {A}.

(** ** The world: file system and network *)

Inductive entry : Type :=
| Dir
| File (data : string).

Definition filesystem : Type := list (string * entry).

(** [os.path.exists(path)] *)
Definition fs_exists (fs : filesystem) (path : string) : bool :=
  existsb (fun pe => fst pe =? path) fs.

Fixpoint fs_set (fs : filesystem) (path : string) (e : entry) : filesystem :=
  match fs with
  | [] => [(path, e)]
  | (q, e') :: rest =>
      if (q =? path) then (q, e) :: rest else (q, e') :: fs_set rest path e
  end.

Fixpoint fs_append (fs : filesystem) (path : string) (chunk : string) : filesystem :=
  match fs with
  | [] => []
  | (q, e') :: rest =>
      if (q =? path)
      then (q, match e' with File data => File (data ++ chunk)%string | Dir => Dir end) :: rest
      else (q, e') :: fs_append rest path chunk
  end.

Record request : Type := {
  req_url : string;
  req_headers : list (string * string);
  req_timeout : nat
}.

Record response : Type := {
  status_code : Z;
  headers : list (string * string);
  text : string;                 (* r.text *)
  url : string;                  (* r.url, after redirects *)
  iter_content : list string;    (* the chunks of r.iter_content(8192) *)
  json_body : option json        (* r.json(); None when the body is not JSON *)
}.

(** [r.headers.get(k)]: header names compare case-insensitively. *)
Fixpoint headers_get (hs : list (string * string)) (k : string) : option string :=
  match hs with
  | [] => None
  | (k', v) :: rest =>
      if (Py.lower k' =? Py.lower k) then Some v else headers_get rest k
  end.

(** What the program did to the outside, oldest first. *)
Inductive event : Type :=
| EvMakedirs (path : string)          (* os.makedirs *)
| EvFetch (rq : request)              (* requests.get of download_file *)
| EvLookup (rq : request)             (* requests.get of get_wayback_url *)
| EvOpen (path : string).             (* open(path, 'wb') *)

Record world : Type := {
  fs : filesystem;
  trace : list event
}.

(** What the program cannot decide: the libraries and the outside.
    The network and the operating system may answer by the whole history. *)
Record Env : Type := {
  html_lib : HtmlLib;
  urlparse_path : string -> string;   (* urlparse(u).path *)
  unquote : string -> string;         (* urllib.parse.unquote *)
  requests_get : world -> request -> option response;  (* None: it raises *)
  os_fails : world -> fs_op -> bool   (* does the operation raise OSError *)
}.

(** ** A state and exception monad over the world *)

Definition M (A : Type) : Type := world -> result A * world.

Definition ret {A} (a : A) : M A := fun w => (Ok a, w).

Definition bind {A B} (c : M A) (k : A -> M B) : M B :=
  fun w =>
    match c w with
    | (Ok a, w') => k a w'
    | (Raise e, w') => (Raise e, w')
    | (Diverged, w') => (Diverged, w')
    end.

Definition raise {A} (e : exn) : M A := fun w => (Raise e, w).

Definition diverge {A} : M A := fun w => (Diverged, w).

(** [try: body except Exception: handler] *)
Definition try_except {A} (body : M A) (handler : exn -> M A) : M A :=
  fun w =>
    match body w with
    | (Raise e, w') => handler e w'
    | other => other
    end.

Definition get_world : M world := fun w => (Ok w, w).

Definition log (e : event) : M unit :=
  fun w => (Ok tt, {| fs := fs w; trace := trace w ++ [e] |}).

Definition set_fs (f : filesystem -> filesystem) : M unit :=
  fun w => (Ok tt, {| fs := f (fs w); trace := trace w |}).

Definition lift {A} (r : result A) : M A := fun w => (r, w).

Declare Scope monad_scope.
Delimit Scope monad_scope with monad.
Notation "x <- c ;; k" := (bind c (fun x => k))
  (at level 61, c at next level, right associativity) : monad_scope.
Notation "c ;; k" := (bind c (fun _ => k))
  (at level 61, right associativity) : monad_scope.
Local Open Scope monad_scope.

(** ** The outcome of a fetch

    The three [return] statements of [download_file]:
    [True, output_path, None], [False, r.text, r.url] and
    [False, None, None]. *)
Inductive fetch_outcome : Type :=
| Downloaded (output_path : string)
| HtmlPage (content : string) (final_url : string)
| Failed.

Definition user_agent : string :=
  "Mozilla/5.0 (Windows NT 10.0; Win64; x64) AppleWebKit/537.36 (KHTML, like Gecko) Chrome/91.0.4472.124 Safari/537.36".

Definition wayback_api : string := "http://archive.org/wayback/available?url=".

(** [str.format] of the numbered path: [f"{base}_{counter}{ext}"] *)
Definition numbered (base ext : string) (counter : nat) : string :=
  base ++ "_" ++ Py.str_of_nat counter ++ ext.

(** Handle duplicates: [while os.path.exists(output_path): ...] *)
Fixpoint free_path_loop (fuel : nat) (files : filesystem) (base ext : string)
         (counter : nat) (output_path : string) : option string :=
  match fuel with
  | O => None
  | S fuel' =>
      if fs_exists files output_path
      then free_path_loop fuel' files base ext (S counter) (numbered base ext counter)
      else Some output_path
  end.

(** The loop cannot need more rounds than there are files, plus two. *)
Definition free_path (files : filesystem) (output_path : string) : option string :=
  let '(base, ext) := Path.splitext output_path in
  free_path_loop (List.length files + 2) files base ext 1 output_path.

(** [data.get(k)] and [data[k]] on a value that came from JSON *)
Definition py_get (v : json) (k : string) : result json :=
  match v with
  | JDict d => Ok (match dict_lookup d k with Some x => x | None => JNull end)
  | _ => Raise AttributeError
  end.

Definition py_index (v : json) (k : string) : result json :=
  match v with
  | JDict d => match dict_lookup d k with Some x => Ok x | None => Raise KeyError end
  | _ => Raise TypeError
  end.

(** The request of [download_file]: a browser-like user agent, the
    referer when there is one, a timeout of 15 seconds. *)
Definition fetch_headers (referer : option string) : list (string * string) :=
  ("User-Agent", user_agent)
  :: (if Py.truthy referer
      then [("Referer", match referer with Some r => r | None => "" end)]
      else []).

Definition fetch_request (url_ : string) (referer : option string) : request :=
  {| req_url := url_; req_headers := fetch_headers referer; req_timeout := 15 |}.

(** The request of [get_wayback_url]. *)
Definition lookup_request (url_ : string) : request :=
  {| req_url := (wayback_api ++ url_)%string; req_headers := []; req_timeout := 10 |}.

(** [r.headers.get('content-type', '').lower()] *)
Definition content_type_of (r : response) : string :=
  Py.lower (match headers_get (headers r) "content-type" with
            | Some v => v
            | None => ""
            end).

(** [r.raise_for_status()]: the statuses 400 to 599 raise. *)
Definition is_error_status (status : Z) : bool :=
  (400 <=? status)%Z && (status <? 600)%Z.

Definition raise_for_status (r : response) : M unit :=
  if is_error_status (status_code r)
  then raise (HTTPError (status_code r))
  else ret tt.

(** The world after one more event. *)
Definition logged (w : world) (e : event) : world :=
  {| fs := fs w; trace := trace w ++ [e] |}.

(** The field [archived_snapshots.closest.url] of a JSON document. *)
Definition snapshot_url_field (data : json) : option json :=
  match data with
  | JDict d =>
      match dict_lookup d "archived_snapshots" with
      | Some (JDict s) =>
          match dict_lookup s "closest" with
          | Some (JDict c) => dict_lookup c "url"
          | _ => None
          end
      | _ => None
      end
  | _ => None
  end.

Section Program.
Variable env : Env.

(** Operating system calls *)
Definition os_call (op : fs_op) (effect : filesystem -> filesystem) : M unit :=
  w <- get_world ;;
  if os_fails env w op then raise (OSError op) else set_fs effect.

Definition os_makedirs (path : string) : M unit :=
  log (EvMakedirs path) ;;
  os_call (OpMakedirs path) (fun files => fs_set files path Dir).

Definition os_open_wb (path : string) : M unit :=
  log (EvOpen path) ;;
  os_call (OpOpen path) (fun files => fs_set files path (File "")).

Definition file_write (path chunk : string) : M unit :=
  os_call (OpWrite path chunk) (fun files => fs_append files path chunk).

(** [requests.get] *)
Definition http_get (ev : request -> event) (rq : request) : M response :=
  w <- get_world ;;
  log (ev rq) ;;
  match requests_get env w rq with
  | Some r => ret r
  | None => raise RequestException
  end.

(** Filename guessing, lines 117 to 127: the name before it is
    sanitized. *)
Definition chosen_filename (r : response) (content_type : string) : string :=
  let filename := get_filename_from_cd (headers_get (headers r) "content-disposition") in
  let filename :=
    if negb (Py.truthy filename)
    then Some (unquote env (Path.basename (urlparse_path env (url r))))
    else filename in
  match filename with
  | Some f =>
      if negb (Py.nonempty f) || negb (Py.has_char "." f)
      then ("downloaded_audio" ++ guessed_ext content_type)%string
      else f
  | None => ("downloaded_audio" ++ guessed_ext content_type)%string
  end.

(** ... and sanitized, line 129. *)
Definition derive_filename (r : response) (content_type : string) : string :=
  clean_filename (chosen_filename r content_type).

(** [for chunk in r.iter_content(chunk_size=8192): if chunk: f.write(chunk)] *)
Fixpoint write_chunks (path : string) (chunks : list string) : M unit :=
  match chunks with
  | [] => ret tt
  | chunk :: rest =>
      (if Py.nonempty chunk then file_write path chunk else ret tt) ;;
      write_chunks path rest
  end.

(** Saving: lines 139 to 151.  [int(...)] of the content-length header
    comes first, then the file is opened and the chunks are written. *)
Definition save (r : response) (output_path : string) : M unit :=
  (match headers_get (headers r) "content-length" with
   | Some v => if int_parses v then ret tt else raise ValueError
   | None => ret tt
   end) ;;
  os_open_wb output_path ;;
  write_chunks output_path (iter_content r).

(** Download a direct file *)
Definition download_file (url_ output_dir : string) (referer : option string)
  : M fetch_outcome :=
  try_except
    (r <- http_get EvFetch (fetch_request url_ referer) ;;
     (* Check if we got a file or a page *)
     let content_type := content_type_of r in
     if Py.contains "text/html" content_type && negb (is_audio_url url_)
     then ret (HtmlPage (text r) (url r))
     else
       raise_for_status r ;;
       let filename := derive_filename r content_type in
       let output_path := Path.join output_dir filename in
       w <- get_world ;;
       match free_path (fs w) output_path with
       | None => diverge
       | Some output_path =>
           save r output_path ;;
           ret (Downloaded output_path)
       end)
    (fun _ => ret Failed).

(** Try to find the latest snapshot from Wayback Machine *)
Definition get_wayback_url (url_ : string) : M json :=
  try_except
    (r <- http_get EvLookup (lookup_request url_) ;;
     data <- lift (match json_body r with
                   | Some d => Ok d
                   | None => Raise JSONDecodeError
                   end) ;;
     snapshots <- lift (py_get data "archived_snapshots") ;;
     if json_truthy snapshots then
       closest <- lift (py_get snapshots "closest") ;;
       if json_truthy closest then lift (py_index closest "url")
       else ret JNull
     else ret JNull)
    (fun _ => ret JNull).

(** [for link in audio_links: ... if s: return path] *)
Fixpoint try_candidates (audio_links : list string) (output_dir final_url : string)
  : M (option string) :=
  match audio_links with
  | [] => ret None
  | link :: rest =>
      o <- download_file link output_dir (Some final_url) ;;
      match o with
      | Downloaded path => ret (Some path)
      | _ => try_candidates rest output_dir final_url
      end
  end.

(** [if not os.path.exists(output_dir): os.makedirs(output_dir)] *)
Definition ensure_dir (output_dir : string) : M unit :=
  w <- get_world ;;
  if negb (fs_exists (fs w) output_dir) then os_makedirs output_dir else ret tt.

(** 2. If it was HTML, search for links *)
Definition scan_page (o : fetch_outcome) (output_dir : string) : M (option string) :=
  match o with
  | HtmlPage html_content final_url =>
      if Py.nonempty html_content
      then try_candidates (find_audio_on_page (html_lib env) html_content final_url)
                          output_dir final_url
      else ret None
  | _ => ret None
  end.

(** 3. Wayback Machine Fallback; [recurse] is [process_url] itself. *)
Definition archive_fallback (recurse : string -> string -> bool -> M (option string))
           (url_ output_dir : string) (try_wayback : bool) : M (option string) :=
  if try_wayback then
    wb_url <- get_wayback_url url_ ;;
    if json_truthy wb_url then
      match wb_url with
      | JStr s => recurse s output_dir false
      | _ =>
          (* requests.get rejects a URL that is not a string: the
             download fails, there is no page to scan and no second
             fallback *)
          ensure_dir output_dir ;; ret None
      end
    else ret None
  else ret None.

(** The steps 1 to 3 of [process_url], which follow the creation of the
    output directory. *)
Definition resolve (recurse : string -> string -> bool -> M (option string))
           (url_ output_dir : string) (try_wayback : bool) : M (option string) :=
  (* 1. Try direct download *)
  o <- download_file url_ output_dir None ;;
  match o with
  | Downloaded path => ret (Some path)
  | _ =>
      found <- scan_page o output_dir ;;
      match found with
      | Some path => ret (Some path)
      | None => archive_fallback recurse url_ output_dir try_wayback
      end
  end.

(** [process_url]; [fuel] bounds the depth of the recursion. *)
Fixpoint process_url (fuel : nat) (url_ output_dir : string) (try_wayback : bool)
  : M (option string) :=
  match fuel with
  | O => diverge
  | S fuel' =>
      ensure_dir output_dir ;;
      resolve (process_url fuel') url_ output_dir try_wayback
  end.
End Program.

(** ** What a run may do to the world *)

(** Nothing that exists disappears. *)
Definition fs_mono (files files' : filesystem) : Prop :=
  forall path, fs_exists files path = true -> fs_exists files' path = true.

(** [w'] comes after [w]: files were only added, and the events added all
    satisfy [p]. *)
Definition extends (p : event -> Prop) (w w' : world) : Prop :=
  fs_mono (fs w) (fs w')
  /\ exists evs, trace w' = trace w ++ evs /\ Forall p evs.

(** [c] ends (it returns or raises) and only does [p]. *)
Definition sound {A} (p : event -> Prop) (c : M A) : Prop :=
  forall w r w', c w = (r, w') -> r <> Diverged /\ extends p w w'.

(** [c] returns and only does [p]. *)
Definition returns {A} (p : event -> Prop) (c : M A) : Prop :=
  forall w, exists a w', c w = (Ok a, w') /\ extends p w w'.

Definition fetch_event (e : event) : Prop :=
  match e with
  | EvFetch _ | EvOpen _ => True
  | _ => False
  end.

Definition is_lookup (e : event) : bool :=
  match e with
  | EvLookup _ => true
  | _ => false
  end.


(** The snapshot lookups of a trace. *)
Definition lookups (tr : list event) : list event := filter is_lookup tr.

(** ** Instances for the examples

    The library parameters at concrete values: a parser that knows the
    documents of the examples, and reference resolution for the two
    simplest cases (an absolute reference is kept, any other replaces the
    last path segment of the base). *)

Module Ex.

Fixpoint upto_last_slash (s : string) : string :=
  match s with
  | EmptyString => EmptyString
  | String c s' =>
      if Py.has_char "/" s' then String c (upto_last_slash s')
      else if (c =? "/")%char then String c EmptyString
      else EmptyString
  end.

Definition simple_urljoin (base ref : string) : string :=
  if Py.contains "://" ref then ref else upto_last_slash base ++ ref.

(** An anchor to [b.mp3] followed by an audio element playing [a.wav]. *)
Definition page_ab : string :=
  "<a href=" ++ Py.dquote ++ "b.mp3" ++ Py.dquote ++ ">b</a>"
  ++ "<audio src=" ++ Py.dquote ++ "a.wav" ++ Py.dquote ++ "></audio>".

Definition doc_ab : soup :=
  [Tag "a" [("href", "b.mp3")] []; Tag "audio" [("src", "a.wav")] []].

(** One URL named by an audio source and by an anchor. *)
Definition page_twice : string :=
  "<audio><source src=" ++ Py.dquote ++ "m/c.ogg" ++ Py.dquote ++ "></audio>"
  ++ "<a href=" ++ Py.dquote ++ "m/c.ogg" ++ Py.dquote ++ ">c</a>".

Definition doc_twice : soup :=
  [Tag "audio" [] [Tag "source" [("src", "m/c.ogg")] []];
   Tag "a" [("href", "m/c.ogg")] []].

Definition parse (html : string) : soup :=
  if html =? page_ab then doc_ab
  else if html =? page_twice then doc_twice
  else [].

Definition lib : HtmlLib := {| BeautifulSoup := parse; urljoin := simple_urljoin |}.

End Ex.

(** ** A small web for the examples *)

Module Web.

(** [urlparse(u).path] for a URL of the form scheme://host/path?query#fragment *)
Fixpoint after_scheme (u : string) : string :=
  match u with
  | EmptyString => EmptyString
  | String _ u' =>
      if String.prefix "://" u then substring 3 (String.length u - 3) u
      else after_scheme u'
  end.

Definition simple_url_path (u : string) : string :=
  let rest := if Py.contains "://" u
              then drop_while (fun c => negb (c =? "/")%char) (after_scheme u)
              else u in
  Py.take_while (fun c => negb ((c =? "?") || (c =? "#"))%char) rest.

Definition audio_response (status : Z) (final_url : string) (hs : list (string * string))
  : response :=
  {| status_code := status;
     headers := ("Content-Type", "audio/mpeg") :: hs;
     text := "ID3";
     url := final_url;
     iter_content := ["ID3"; ""; "data"];
     json_body := None |}.

Definition html_response (status : Z) (final_url body : string) : response :=
  {| status_code := status;
     headers := [("Content-Type", "text/html; charset=utf-8")];
     text := body;
     url := final_url;
     iter_content := [body];
     json_body := None |}.

Definition json_response (data : json) : response :=
  {| status_code := 200;
     headers := [("Content-Type", "application/json")];
     text := "{}";
     url := "http://archive.org/wayback/available";
     iter_content := ["{}"];
     json_body := Some data |}.

Definition snapshot (u : string) : json :=
  JDict [("url", JStr "x");
         ("archived_snapshots", JDict [("closest", JDict [("available", JBool true);
                                                          ("url", JStr u)])])].

(** A page with no audio at all. *)
Definition page_gone : string := "<p>gone</p>".

(** Two anchors, [c1.mp3] and [c2.mp3]. *)
Definition page_two : string :=
  "<a href=" ++ Py.dquote ++ "c1.mp3" ++ Py.dquote ++ ">1</a>"
  ++ "<a href=" ++ Py.dquote ++ "c2.mp3" ++ Py.dquote ++ ">2</a>".

Definition doc_two : soup :=
  [Tag "a" [("href", "c1.mp3")] []; Tag "a" [("href", "c2.mp3")] []].

Definition parse (html : string) : soup :=
  if html =? page_two then doc_two else Ex.parse html.

Definition archived : string := "http://web.archive.org/web/2020/http://host/gone.html".
Definition archived_again : string := "http://web.archive.org/web/2010/http://host/gone.html".

Definition site (u : string) : option response :=
  if u =? "http://host/clip.mp3" then Some (audio_response 200 u [])
  else if u =? "http://host/get?id=7" then
    Some (audio_response 200 "http://host/music/track.mp3"
            [("Content-Disposition", "attachment; filename=song")])
  else if u =? "http://host/cached" then Some (audio_response 304 u [])
  else if u =? "http://host/dir/missing" then Some (html_response 404 u Ex.page_ab)
  else if u =? "http://host/dir/b.mp3" then Some (audio_response 200 u [])
  else if u =? "http://host/two.html" then Some (html_response 200 u page_two)
  else if u =? "http://host/c1.mp3" then Some (audio_response 200 u [])
  else if u =? "http://host/c2.mp3" then Some (audio_response 200 u [])
  else if u =? "http://host/gone.html" then Some (html_response 200 u page_gone)
  else if u =? archived then Some (html_response 200 u page_gone)
  else if u =? archived_again then Some (audio_response 200 u [])
  else if u =? (wayback_api ++ "http://host/gone.html")%string
       then Some (json_response (snapshot archived))
  else if u =? (wayback_api ++ archived)%string
       then Some (json_response (snapshot archived_again))
  else if u =? (wayback_api ++ "http://host/two.html")%string
       then Some (json_response (JDict [("archived_snapshots", JDict [])]))
  else None.

Definition env_with (fails : world -> fs_op -> bool) : Env :=
  {| html_lib := {| BeautifulSoup := parse; urljoin := Ex.simple_urljoin |};
     urlparse_path := simple_url_path;
     unquote := fun s => s;
     requests_get := fun _ rq => site (req_url rq);
     os_fails := fails |}.

(** The operating system never refuses... *)
Definition env : Env := env_with (fun _ _ => false).

(** ... no file can be opened for writing... *)
Definition env_readonly : Env :=
  env_with (fun _ op => match op with OpOpen _ => true | _ => false end).


Definition empty : world := {| fs := []; trace := [] |}.

Definition with_downloads : world := {| fs := [("downloads", Dir)]; trace := [] |}.

End Web.

(** ** The rules in the words of the specification *)






(** The events of one resolution once the output directory is there:
    fetches, then at most one snapshot lookup, for [url_] and only when the
    fallback is allowed, then fetches again. *)
Definition resolution_trace (url_ : string) (try_wayback : bool) (evs : list event)
  : Prop :=
  exists evs1 lk evs2,
    evs = evs1 ++ lk ++ evs2
    /\ Forall fetch_event evs1
    /\ Forall fetch_event evs2
    /\ (lk = [] \/ (try_wayback = true /\ lk = [EvLookup (lookup_request url_)])).

(** ** More of the program: what it reads and leaves on disk *)

(** The entry at [path], the first one as [fs_exists] finds it. *)
Fixpoint fs_lookup (files : filesystem) (path : string) : option entry :=
  match files with
  | [] => None
  | (q, e) :: rest => if (q =? path) then Some e else fs_lookup rest path
  end.

(** Whatever was there is still there, unchanged. *)
Definition fs_preserved (files files' : filesystem) : Prop :=
  forall path, fs_exists files path = true ->
               fs_lookup files' path = fs_lookup files path.

(** [w'] is a later world than [w]: the old entries are as they were and
    the trace has grown. *)
Definition later (w w' : world) : Prop :=
  fs_preserved (fs w) (fs w')
  /\ exists evs, trace w' = trace w ++ evs.

(** However [c] ends, it leads to a later world. *)
Definition keeps {A} (c : M A) : Prop :=
  forall w r w', c w = (r, w') -> later w w'.

(** The requests of [download_file] in a trace, oldest first. *)
Definition fetches (tr : list event) : list request :=
  flat_map (fun e => match e with EvFetch rq => [rq] | _ => [] end) tr.

(** The chunks of a body put together. *)
Definition joined (chunks : list string) : string :=
  fold_right append "" chunks.

Section Main.
Variable env : Env.

End Main.

(** More cases for the examples. *)
Module Cases.


(** A world with a file that was there before. *)
Definition with_old_file : world :=
  {| fs := [("downloads", Dir); ("downloads/clip.mp3", File "old")]; trace := [] |}.

(** A server that declares everything to be HTML. *)
Definition env_all_html : Env :=
  {| html_lib := html_lib Web.env;
     urlparse_path := Web.simple_url_path;
     unquote := fun s => s;
     requests_get := fun _ rq => Some (Web.html_response 200 (req_url rq) "<p>x</p>");
     os_fails := fun _ _ => false |}.

End Cases.

(** [p] was saved into [output_dir] between [w] and [w']: it is the
    directory joined with one path component, it was not there before and
    it is there after. *)
Definition saved_in (output_dir : string) (w : world) (p : string) (w' : world) : Prop :=
  fs_exists (fs w) p = false
  /\ fs_exists (fs w') p = true
  /\ exists name, p = Path.join output_dir name
                  /\ Py.has_char "/" name = false
                  /\ Py.has_char "." name = true.

(** * Properties of the string primitives *)

(** ** Strings *)

Lemma append_nil_r (s : string) : (s ++ "")%string = s.
Proof. induction s; simpl; congruence. Qed.

Lemma append_length (a b : string) :
  String.length (a ++ b) = String.length a + String.length b.
Proof. induction a; simpl; congruence. Qed.

Lemma append_cancel_l (a b c : string) : (a ++ b = a ++ c)%string -> b = c.
Proof. induction a; simpl; intros H; [assumption|]. injection H. auto. Qed.

Lemma append_cancel_r (a b c : string) : (a ++ c = b ++ c)%string -> a = b.
Proof.
  revert b. induction a as [|x a IH]; intros [|y b] H; simpl in *.
  - reflexivity.
  - apply (f_equal String.length) in H. simpl in H. rewrite append_length in H. lia.
  - apply (f_equal String.length) in H. simpl in H. rewrite append_length in H. lia.
  - injection H as -> H. f_equal. now apply IH.
Qed.

Lemma substring_split (n : nat) (s : string) :
  n <= String.length s ->
  (substring 0 n s ++ substring n (String.length s - n) s)%string = s.
Proof.
  revert n. induction s as [|c s IH]; intros [|n] Hn; simpl in *; try lia.
  - reflexivity.
  - f_equal. clear. induction s; simpl; congruence.
  - f_equal. apply IH. lia.
Qed.

(** [endswith] and [in] mean what they say. *)
Lemma substring_whole (s : string) : substring 0 (String.length s) s = s.
Proof. induction s; simpl; congruence. Qed.

Lemma substring_skip (pre s : string) (m : nat) :
  substring (String.length pre) m (pre ++ s) = substring 0 m s.
Proof. induction pre; simpl; [reflexivity|assumption]. Qed.

Lemma endswith_spec (s suf : string) :
  Py.endswith s suf = true <-> exists pre, s = (pre ++ suf)%string.
Proof.
  unfold Py.endswith. rewrite andb_true_iff, Nat.leb_le, String.eqb_eq. split.
  - intros [Hle Hsub].
    exists (substring 0 (String.length s - String.length suf) s).
    pose proof (substring_split (String.length s - String.length suf) s) as E.
    replace (String.length s - (String.length s - String.length suf))
      with (String.length suf) in E by lia.
    rewrite Hsub in E. symmetry. apply E. lia.
  - intros [pre ->]. rewrite append_length. split; [lia|].
    replace (String.length pre + String.length suf - String.length suf)
      with (String.length pre) by lia.
    rewrite substring_skip. apply substring_whole.
Qed.

Lemma prefix_spec (p s : string) :
  String.prefix p s = true <-> exists rest, s = (p ++ rest)%string.
Proof.
  rewrite prefix_correct. split.
  - intros H. exists (substring (String.length p) (String.length s - String.length p) s).
    rewrite <- H at 1. symmetry. apply substring_split.
    destruct (Nat.le_gt_cases (String.length p) (String.length s)) as [Hle|Hgt];
      [assumption|].
    apply (f_equal String.length) in H.
    assert (Hlen : forall n t, String.length (substring 0 n t) <= String.length t).
    { intros n t. revert n. induction t as [|c t IH]; intros [|n]; simpl; try lia.
      specialize (IH n). lia. }
    specialize (Hlen (String.length p) s). lia.
  - intros [rest ->]. clear.
    induction p as [|c p IH]; simpl; [now destruct rest|]. now rewrite IH.
Qed.

Lemma contains_spec (needle hay : string) :
  Py.contains needle hay = true
  <-> exists before after, hay = (before ++ needle ++ after)%string.
Proof.
  induction hay as [|c hay IH]; cbn [Py.contains].
  - rewrite orb_false_r, prefix_spec. split.
    + intros [rest H]. now exists "", rest.
    + intros [before [after H]]. destruct before; [now exists after|discriminate].
  - rewrite orb_true_iff, prefix_spec, IH. split.
    + intros [[rest H]|[before [after H]]].
      * now exists "", rest.
      * exists (String c before), after. simpl. now rewrite H.
    + intros [before [after H]]. destruct before as [|d before].
      * left. now exists after.
      * right. simpl in H. injection H as _ H. now exists before, after.
Qed.

Lemma is_audio_url_spec (url_ : string) :
  is_audio_url url_ = true
  <-> exists e, In e [".mp3"; ".wav"; ".m4a"; ".ogg"; ".flac"; ".aac"; ".wma"]
                /\ exists pre, Py.lower url_ = (pre ++ e)%string.
Proof.
  unfold is_audio_url. rewrite existsb_exists.
  split; intros [e [Hin H]]; exists e; (split; [exact Hin|]); now apply endswith_spec.
Qed.

(** * Properties of the candidate extractor *)

(** ** The stable sort on a two-valued key is a stable partition *)

Section SortFacts.
Context {A : Type} (key : A -> nat).

Lemma insert_by_key_perm (x : A) (l : list A) :
  Permutation (x :: l) (insert_by_key key x l).
Proof.
  induction l as [|y l IH]; simpl; auto.
  destruct (key x <=? key y)%nat; auto.
  eapply perm_trans; [apply perm_swap|]. now constructor.
Qed.

Lemma sort_by_key_perm (l : list A) : Permutation l (sort_by_key key l).
Proof.
  induction l as [|x l IH]; simpl; auto.
  eapply perm_trans; [|apply insert_by_key_perm]. now constructor.
Qed.

(** Elements of one key keep their order through an insertion... *)
Lemma insert_by_key_filter (k : nat) (x : A) (l : list A) :
  filter (fun y => key y =? k)%nat (insert_by_key key x l)
  = filter (fun y => key y =? k)%nat (x :: l).
Proof.
  induction l as [|y l IH]; [reflexivity|].
  simpl insert_by_key.
  destruct (key x <=? key y)%nat eqn:Hle; [reflexivity|].
  apply Nat.leb_gt in Hle.
  simpl in *. rewrite IH.
  destruct (key y =? k)%nat eqn:Hy, (key x =? k)%nat eqn:Hx; try reflexivity.
  apply Nat.eqb_eq in Hy, Hx. lia.
Qed.

(** ... and so through the sort: it is stable. *)
Lemma sort_by_key_stable (k : nat) (l : list A) :
  filter (fun y => key y =? k)%nat (sort_by_key key l)
  = filter (fun y => key y =? k)%nat l.
Proof.
  induction l as [|x l IH]; [reflexivity|].
  simpl sort_by_key. rewrite insert_by_key_filter.
  simpl. now rewrite IH.
Qed.

(** The result is in key order.  A permutation in key order that keeps
    the order of equal keys: that is what [list.sort] promises, and it
    leaves no choice. *)
Lemma insert_by_key_hdrel (a x : A) (l : list A) :
  key a <= key x ->
  HdRel (fun u v => key u <= key v) a l ->
  HdRel (fun u v => key u <= key v) a (insert_by_key key x l).
Proof.
  intros Hax H. destruct l as [|y l]; simpl; [now constructor|].
  destruct (key x <=? key y)%nat; constructor; [assumption|].
  now inversion H.
Qed.

Lemma insert_by_key_sorted (x : A) (l : list A) :
  Sorted (fun u v => key u <= key v) l ->
  Sorted (fun u v => key u <= key v) (insert_by_key key x l).
Proof.
  induction 1 as [|y l Hs IH Hhd]; simpl.
  - repeat constructor.
  - destruct (key x <=? key y)%nat eqn:E.
    + apply Nat.leb_le in E. repeat (constructor; try assumption).
    + apply Nat.leb_gt in E. constructor; [assumption|].
      apply insert_by_key_hdrel; [lia|assumption].
Qed.

Lemma sort_by_key_sorted (l : list A) :
  Sorted (fun u v => key u <= key v) (sort_by_key key l).
Proof.
  induction l as [|x l IH]; simpl; [constructor|]. now apply insert_by_key_sorted.
Qed.



Hypothesis key_01 : forall x, key x = 0 \/ key x = 1.

End SortFacts.






(** ** Deduplication *)

Lemma existsb_eqb_In (r : string) (seen : list string) :
  existsb (String.eqb r) seen = true <-> In r seen.
Proof.
  rewrite existsb_exists. split.
  - intros [x [Hin Heq]]. apply String.eqb_eq in Heq. now subst.
  - intros Hin. exists r. split; [assumption|apply String.eqb_refl].
Qed.

Lemma unique_from_In (seen l : list string) (x : string) :
  In x (unique_from seen l) <-> In x l /\ ~ In x seen.
Proof.
  revert seen. induction l as [|r l IH]; intros seen; simpl.
  - tauto.
  - destruct (existsb (String.eqb r) seen) eqn:E.
    + apply existsb_eqb_In in E. rewrite IH. split.
      * tauto.
      * intros [[->|H] Hn]; [contradiction|tauto].
    + assert (Hr : ~ In r seen).
      { intros H. apply existsb_eqb_In in H. congruence. }
      simpl. rewrite IH. simpl. split.
      * intros [->|[H Hn]]; [tauto|]. split; [tauto|]. intros H'. apply Hn. now right.
      * intros [[->|H] Hn]; [now left|].
        destruct (string_dec r x) as [->|Hne]; [now left|].
        right. split; [assumption|]. intros [H'|H']; [contradiction|contradiction].
Qed.

Lemma unique_from_NoDup (seen l : list string) : NoDup (unique_from seen l).
Proof.
  revert seen. induction l as [|r l IH]; intros seen; simpl.
  - constructor.
  - destruct (existsb (String.eqb r) seen); [apply IH|].
    constructor; [|apply IH].
    rewrite unique_from_In. simpl. tauto.
Qed.

Lemma unique_from_first_occurrences (seen before l : list string) :
  (forall x, In x seen <-> In x before) ->
  unique_from seen l = first_occurrences before l.
Proof.
  revert seen before. induction l as [|r l IH]; intros seen before Hsb; simpl.
  - reflexivity.
  - destruct (existsb (String.eqb r) seen) eqn:E.
    + apply existsb_eqb_In in E.
      destruct (in_dec string_dec r before) as [_|Hn]; [|now apply Hsb in E].
      simpl. apply IH. intros x. rewrite in_app_iff, <- Hsb. simpl.
      split; [tauto|]. intros [H|[->|[]]]; assumption.
    + destruct (in_dec string_dec r before) as [Hi|_].
      * apply Hsb, existsb_eqb_In in Hi. congruence.
      * simpl. f_equal. apply IH. intros x. rewrite in_app_iff, <- Hsb. simpl. tauto.
Qed.

(** ** C1: mp3 first, discovery order kept *)




(** ** C7: no URL twice *)

(** C7.  The list [find_audio_on_page] returns holds no URL twice: it has
    exactly the URLs of the resolved working list, each once, and before
    the final partition it is the working list with every element dropped
    that already occurred (first occurrence wins).  A URL found through an
    audio source and through an anchor is in it exactly once. *)
Theorem find_audio_on_page_no_duplicates (lib : HtmlLib) (html_content base_url : string) :
  let r := find_audio_on_page lib html_content base_url in
  NoDup r
  /\ (forall x, In x r <-> In x (resolved lib html_content base_url))
  /\ (forall x, In x (resolved lib html_content base_url) ->
                count_occ string_dec r x = 1)
  /\ discovered lib html_content base_url
     = first_occurrences [] (resolved lib html_content base_url)
  /\ Permutation (discovered lib html_content base_url) r.
Proof.
  intros r.
  assert (Hp : Permutation (discovered lib html_content base_url) r)
    by apply sort_by_key_perm.
  assert (Hnd : NoDup r).
  { eapply Permutation_NoDup; [exact Hp|]. apply unique_from_NoDup. }
  assert (Hin : forall x, In x r <-> In x (resolved lib html_content base_url)).
  { intros x. split.
    - intros H. apply Permutation_sym in Hp.
      apply (Permutation_in _ Hp) in H. apply unique_from_In in H. tauto.
    - intros H. apply (Permutation_in _ Hp). apply unique_from_In. simpl. tauto. }
  repeat split; try assumption; try apply Hin.
  - intros x Hx. apply (proj1 (NoDup_count_occ' string_dec r) Hnd). now apply Hin.
  - apply unique_from_first_occurrences. tauto.
Qed.

Lemma find_audio_on_page_no_duplicates_witness :
  In "http://host/m/c.ogg" (resolved Ex.lib Ex.page_twice "http://host/p.html")
  /\ count_occ string_dec
       (find_audio_on_page Ex.lib Ex.page_twice "http://host/p.html")
       "http://host/m/c.ogg" = 1.
Proof.
  assert (H : In "http://host/m/c.ogg"
                 (resolved Ex.lib Ex.page_twice "http://host/p.html"))
    by (vm_compute; left; reflexivity).
  split; [exact H|].
  exact (proj1 (proj2 (proj2
           (find_audio_on_page_no_duplicates Ex.lib Ex.page_twice "http://host/p.html")))
           "http://host/m/c.ogg" H).
Defined.

(** * Properties of file naming *)

(** ** Numbered names *)

Lemma str_of_nat_inj (m n : nat) : Py.str_of_nat m = Py.str_of_nat n -> m = n.
Proof.
  unfold Py.str_of_nat. intros H.
  apply Unsigned.to_uint_inj.
  apply (f_equal NilEmpty.uint_of_string) in H.
  rewrite !NilEmpty.usu in H. congruence.
Qed.

Lemma numbered_inj (base ext : string) (m n : nat) :
  numbered base ext m = numbered base ext n -> m = n.
Proof.
  unfold numbered. intros H.
  apply append_cancel_l in H. apply (append_cancel_l "_") in H.
  apply append_cancel_r in H. now apply str_of_nat_inj.
Qed.

(** ** [os.path.splitext] cuts the path in two *)

Lemma rfind_from_range (i : Z) (c : ascii) (s : string) :
  (Path.rfind_from i c s = -1
   \/ i <= Path.rfind_from i c s < i + Z.of_nat (String.length s))%Z.
Proof.
  revert i. induction s as [|d s IH]; intros i; simpl Path.rfind_from.
  - now left.
  - specialize (IH (i + 1)%Z).
    destruct (0 <=? Path.rfind_from (i + 1) c s)%Z eqn:Hz;
      [apply Z.leb_le in Hz|apply Z.leb_gt in Hz];
      destruct (c =? d)%char;
      change (String.length (String d s)) with (S (String.length s));
      rewrite Nat2Z.inj_succ; lia.
Qed.

Lemma splitext_concat (p base ext : string) :
  Path.splitext p = (base, ext) -> (base ++ ext)%string = p.
Proof.
  unfold Path.splitext.
  destruct ((Path.rfind "/" p <? Path.rfind "." p)%Z
            && Path.non_dot_between (Path.rfind "/" p + 1) (Path.rfind "." p) p) eqn:E;
    intros H; injection H as <- <-.
  - apply andb_true_iff in E. destruct E as [E _]. apply Z.ltb_lt in E.
    unfold Path.slice_to, Path.slice_from.
    apply substring_split.
    unfold Path.rfind in *.
    destruct (rfind_from_range 0 "." p) as [R|R]; [rewrite R; simpl; lia|lia].
  - apply append_nil_r.
Qed.

(** ** The file system *)

Lemma fs_exists_In (files : filesystem) (path : string) :
  fs_exists files path = true <-> In path (map fst files).
Proof.
  unfold fs_exists. rewrite existsb_exists, in_map_iff. split.
  - intros [pe [Hin E]]. apply String.eqb_eq in E. now exists pe.
  - intros [pe [E Hin]]. exists pe. split; [assumption|]. now apply String.eqb_eq.
Qed.

Lemma fs_exists_set (files : filesystem) (path : string) (e : entry) (q : string) :
  fs_exists (fs_set files path e) q = fs_exists files q || (path =? q).
Proof.
  unfold fs_exists.
  induction files as [|[k v] files IH]; simpl.
  - apply orb_false_r.
  - destruct (k =? path) eqn:E; simpl.
    + apply String.eqb_eq in E. subst k.
      destruct (path =? q); simpl; [reflexivity|]. now rewrite orb_false_r.
    + rewrite IH. now rewrite orb_assoc.
Qed.

Lemma fs_exists_append (files : filesystem) (path chunk q : string) :
  fs_exists (fs_append files path chunk) q = fs_exists files q.
Proof.
  unfold fs_exists.
  induction files as [|[k v] files IH]; simpl; [reflexivity|].
  destruct (k =? path); simpl; [reflexivity|]. now rewrite IH.
Qed.

(** ** The search for a free path *)

Lemma free_path_loop_some (fuel : nat) (files : filesystem) (base ext : string)
      (counter : nat) (output_path q : string) :
  free_path_loop fuel files base ext counter output_path = Some q ->
  fs_exists files q = false
  /\ ((fs_exists files output_path = false /\ q = output_path)
      \/ (fs_exists files output_path = true
          /\ exists k, counter <= k /\ q = numbered base ext k
                       /\ forall j, counter <= j < k ->
                                    fs_exists files (numbered base ext j) = true)).
Proof.
  revert counter output_path.
  induction fuel as [|fuel IH]; intros counter output_path; simpl; [discriminate|].
  destruct (fs_exists files output_path) eqn:E.
  - intros H. apply IH in H. destruct H as [Hq H]. split; [assumption|].
    right. split; [reflexivity|].
    destruct H as [[Hn ->]|[Hy [k [Hk [-> Hall]]]]].
    + exists counter. split; [lia|]. split; [reflexivity|]. intros j Hj. lia.
    + exists k. split; [lia|]. split; [reflexivity|].
      intros j Hj. destruct (Nat.eq_dec j counter) as [->|Hne]; [assumption|].
      apply Hall. lia.
  - intros H. injection H as <-. split; [assumption|]. now left.
Qed.

Lemma free_path_loop_none (fuel : nat) (files : filesystem) (base ext : string)
      (counter : nat) (output_path : string) :
  free_path_loop fuel files base ext counter output_path = None ->
  forall j, counter <= j < counter + (fuel - 1) ->
            fs_exists files (numbered base ext j) = true.
Proof.
  revert counter output_path.
  induction fuel as [|fuel IH]; intros counter output_path; simpl.
  - intros _ j Hj. lia.
  - destruct (fs_exists files output_path) eqn:E; [|discriminate].
    intros H j Hj.
    destruct fuel as [|fuel]; [lia|].
    simpl in H.
    destruct (fs_exists files (numbered base ext counter)) eqn:E'; [|discriminate].
    destruct (Nat.eq_dec j counter) as [->|Hne]; [assumption|].
    apply (IH (S counter) (numbered base ext counter)).
    + simpl. now rewrite E'.
    + simpl. lia.
Qed.

(** More names exist than files: the loop ends. *)
Lemma free_path_total (files : filesystem) (output_path : string) :
  exists q, free_path files output_path = Some q.
Proof.
  unfold free_path. destruct (Path.splitext output_path) as [base ext].
  destruct (free_path_loop (length files + 2) files base ext 1 output_path) as [q|] eqn:E.
  - now exists q.
  - exfalso.
    pose proof (free_path_loop_none _ _ _ _ _ _ E) as Hall.
    pose (names := map (numbered base ext) (seq 1 (length files + 1))).
    assert (Hnd : NoDup names).
    { apply NoDup_map_NoDup_ForallPairs; [|apply seq_NoDup].
      intros m n _ _. apply numbered_inj. }
    assert (Hincl : incl names (map fst files)).
    { intros x Hx. apply in_map_iff in Hx. destruct Hx as [j [<- Hj]].
      apply in_seq in Hj. apply fs_exists_In. apply Hall. lia. }
    pose proof (NoDup_incl_length Hnd Hincl) as Hlen.
    unfold names in Hlen. rewrite !length_map, length_seq in Hlen. lia.
Qed.

(** * Properties of the pipeline *)

(** ** Runs compose *)

Lemma fs_mono_refl (files : filesystem) : fs_mono files files.
Proof. intros p H. exact H. Qed.

Lemma fs_mono_trans (f1 f2 f3 : filesystem) :
  fs_mono f1 f2 -> fs_mono f2 f3 -> fs_mono f1 f3.
Proof. intros H12 H23 p H. auto. Qed.

Lemma extends_refl (p : event -> Prop) (w : world) : extends p w w.
Proof.
  split; [apply fs_mono_refl|]. exists []. split; [now rewrite app_nil_r|constructor].
Qed.

Lemma extends_trans (p : event -> Prop) (w1 w2 w3 : world) :
  extends p w1 w2 -> extends p w2 w3 -> extends p w1 w3.
Proof.
  intros [M12 [e12 [T12 F12]]] [M23 [e23 [T23 F23]]].
  split; [eapply fs_mono_trans; eassumption|].
  exists (e12 ++ e23). split.
  - now rewrite T23, T12, app_assoc.
  - apply Forall_app. now split.
Qed.

Section Runs.
Context {A B : Type} (p : event -> Prop).

Lemma sound_ret (a : A) : sound p (ret a).
Proof.
  intros w r w' H. injection H as <- <-. split; [discriminate|apply extends_refl].
Qed.

Lemma sound_raise (e : exn) : sound p (@raise A e).
Proof.
  intros w r w' H. injection H as <- <-. split; [discriminate|apply extends_refl].
Qed.

Lemma sound_bind (c : M A) (k : A -> M B) :
  sound p c -> (forall a, sound p (k a)) -> sound p (bind c k).
Proof.
  intros Hc Hk w r w' H. unfold bind in H.
  destruct (c w) as [[a|e|] w1] eqn:E; specialize (Hc _ _ _ E).
  - destruct (Hk a _ _ _ H) as [Hr Hx]. split; [assumption|].
    eapply extends_trans; [apply Hc|assumption].
  - injection H as <- <-. split; [discriminate|apply Hc].
  - now destruct Hc.
Qed.

Lemma returns_ret (a : A) : returns p (ret a).
Proof. intros w. exists a, w. split; [reflexivity|apply extends_refl]. Qed.

Lemma returns_bind (c : M A) (k : A -> M B) :
  returns p c -> (forall a, returns p (k a)) -> returns p (bind c k).
Proof.
  intros Hc Hk w. destruct (Hc w) as [a [w1 [E Hx]]].
  destruct (Hk a w1) as [b [w2 [E2 Hx2]]].
  exists b, w2. unfold bind. rewrite E. split; [assumption|].
  eapply extends_trans; eassumption.
Qed.

(** A handler that returns makes the whole [try] return. *)
Lemma returns_try_except (body : M A) (handler : exn -> M A) :
  sound p body -> (forall e, returns p (handler e)) ->
  returns p (try_except body handler).
Proof.
  intros Hb Hh w. unfold try_except.
  destruct (body w) as [[a|e|] w1] eqn:E; specialize (Hb _ _ _ E).
  - exists a, w1. split; [reflexivity|apply Hb].
  - destruct (Hh e w1) as [a [w2 [E2 Hx2]]]. exists a, w2.
    split; [assumption|]. eapply extends_trans; [apply Hb|assumption].
  - now destruct Hb.
Qed.
End Runs.

Lemma sound_get_world (p : event -> Prop) : sound p get_world.
Proof.
  intros w r w' H. injection H as <- <-. split; [discriminate|apply extends_refl].
Qed.

Lemma sound_log (p : event -> Prop) (e : event) : p e -> sound p (log e).
Proof.
  intros He w r w' H. injection H as <- <-. split; [discriminate|].
  split; [apply fs_mono_refl|]. exists [e]. split; [reflexivity|]. now constructor.
Qed.

Lemma sound_set_fs (p : event -> Prop) (f : filesystem -> filesystem) :
  (forall files, fs_mono files (f files)) -> sound p (set_fs f).
Proof.
  intros Hf w r w' H. injection H as <- <-. split; [discriminate|].
  split; [apply Hf|]. exists []. split; [simpl; now rewrite app_nil_r|constructor].
Qed.

Lemma fs_mono_set (path : string) (e : entry) (files : filesystem) :
  fs_mono files (fs_set files path e).
Proof. intros q H. rewrite fs_exists_set, H. reflexivity. Qed.

Lemma fs_mono_append (path chunk : string) (files : filesystem) :
  fs_mono files (fs_append files path chunk).
Proof. intros q H. now rewrite fs_exists_append. Qed.

Create HintDb runs.
#[local] Hint Resolve sound_ret sound_raise sound_get_world sound_log sound_set_fs
  fs_mono_set fs_mono_append : runs.

Section ProgramRuns.
Variable env : Env.

Lemma sound_os_call (p : event -> Prop) (op : fs_op) (f : filesystem -> filesystem) :
  (forall files, fs_mono files (f files)) -> sound p (os_call env op f).
Proof.
  intros Hf. unfold os_call. apply sound_bind; [auto with runs|].
  intros w. destruct (os_fails env w op); auto with runs.
Qed.

Lemma sound_write_chunks (p : event -> Prop) (path : string) (chunks : list string) :
  sound p (write_chunks env path chunks).
Proof.
  induction chunks as [|chunk rest IH]; simpl; [auto with runs|].
  apply sound_bind; [|intros _; exact IH].
  destruct (Py.nonempty chunk); [|auto with runs].
  apply sound_os_call. auto with runs.
Qed.

Lemma sound_save (r : response) (path : string) :
  sound fetch_event (save env r path).
Proof.
  unfold save. apply sound_bind.
  - destruct (headers_get (headers r) "content-length") as [v|]; [|auto with runs].
    destruct (int_parses v); auto with runs.
  - intros _. apply sound_bind; [|intros _; apply sound_write_chunks].
    unfold os_open_wb. apply sound_bind; [apply sound_log; exact I|].
    intros _. apply sound_os_call. auto with runs.
Qed.

Lemma sound_http_get (p : event -> Prop) (ev : request -> event) (rq : request) :
  p (ev rq) -> sound p (http_get env ev rq).
Proof.
  intros Hp. unfold http_get. apply sound_bind; [auto with runs|].
  intros w. apply sound_bind; [auto with runs|].
  intros _. destruct (requests_get env w rq); auto with runs.
Qed.

Lemma sound_raise_for_status (p : event -> Prop) (r : response) :
  sound p (raise_for_status r).
Proof.
  unfold raise_for_status.
  destruct (is_error_status (status_code r)); auto with runs.
Qed.

(** [download_file] always returns one of its three outcomes: whatever is
    raised inside is caught. *)
Lemma download_file_returns (url_ output_dir : string) (referer : option string) :
  returns fetch_event (download_file env url_ output_dir referer).
Proof.
  unfold download_file. apply returns_try_except; [|intros _; apply returns_ret].
  apply sound_bind; [now apply sound_http_get|]. intros r.
  match goal with |- sound _ (if ?c then _ else _) => destruct c end;
    [apply sound_ret|].
  apply sound_bind; [apply sound_raise_for_status|]. intros _.
  apply sound_bind; [apply sound_get_world|]. intros w.
  destruct (free_path_total (fs w)
              (Path.join output_dir
                 (derive_filename env r (content_type_of r)))) as [q Hq].
  rewrite Hq. apply sound_bind; [apply sound_save|]. intros _. apply sound_ret.
Qed.

Lemma try_candidates_returns (audio_links : list string) (output_dir final_url : string) :
  returns fetch_event (try_candidates env audio_links output_dir final_url).
Proof.
  induction audio_links as [|link rest IH]; simpl; [apply returns_ret|].
  apply returns_bind; [apply download_file_returns|].
  intros [path|html u|]; [apply returns_ret|exact IH|exact IH].
Qed.

Lemma scan_page_returns (o : fetch_outcome) (output_dir : string) :
  returns fetch_event (scan_page env o output_dir).
Proof.
  destruct o as [path|html u|]; simpl; try apply returns_ret.
  destruct (Py.nonempty html); [apply try_candidates_returns|apply returns_ret].
Qed.
End ProgramRuns.

(** ** What one fetch computes *)

Lemma dict_lookup_falsy (d : list (string * json)) (k : string) :
  json_truthy (JDict d) = false -> dict_lookup d k = None.
Proof. destruct d; [reflexivity|discriminate]. Qed.

Section FetchFacts.
Variable env : Env.

Lemma http_get_eq (ev : request -> event) (rq : request) (w : world) :
  http_get env ev rq w
  = match requests_get env w rq with
    | Some r => (Ok r, logged w (ev rq))
    | None => (Raise RequestException, logged w (ev rq))
    end.
Proof.
  unfold http_get, bind, get_world, log, logged, ret, raise.
  destruct (requests_get env w rq); reflexivity.
Qed.

(** [download_file], case by case. *)
Lemma download_file_eq (url_ output_dir : string) (referer : option string) (w : world) :
  download_file env url_ output_dir referer w
  = let w1 := logged w (EvFetch (fetch_request url_ referer)) in
    match requests_get env w (fetch_request url_ referer) with
    | None => (Ok Failed, w1)
    | Some r =>
        if Py.contains "text/html" (content_type_of r) && negb (is_audio_url url_)
        then (Ok (HtmlPage (text r) (url r)), w1)
        else if is_error_status (status_code r) then (Ok Failed, w1)
        else
          match free_path (fs w)
                  (Path.join output_dir (derive_filename env r (content_type_of r))) with
          | None => (Diverged, w1)
          | Some output_path =>
              match save env r output_path w1 with
              | (Ok _, w2) => (Ok (Downloaded output_path), w2)
              | (Raise _, w2) => (Ok Failed, w2)
              | (Diverged, w2) => (Diverged, w2)
              end
          end
    end.
Proof.
  unfold download_file, try_except, bind at 1. rewrite http_get_eq.
  destruct (requests_get env w (fetch_request url_ referer)) as [r|]; [|reflexivity].
  cbv zeta.
  destruct (Py.contains "text/html" (content_type_of r) && negb (is_audio_url url_));
    [reflexivity|].
  unfold bind at 1, raise_for_status.
  destruct (is_error_status (status_code r)); [reflexivity|].
  unfold ret at 1. unfold bind at 1, get_world.
  change (fs (logged w (EvFetch (fetch_request url_ referer)))) with (fs w).
  destruct (free_path (fs w)
              (Path.join output_dir (derive_filename env r (content_type_of r))))
    as [output_path|]; [|reflexivity].
  unfold bind at 1.
  destruct (save env r output_path
              (logged w (EvFetch (fetch_request url_ referer)))) as [[[]|e|] w2];
    reflexivity.
Qed.

(** [get_wayback_url]: the value of the field when the answer has it,
    [None] in every other case. *)
Lemma get_wayback_url_eq (url_ : string) (w : world) :
  get_wayback_url env url_ w
  = (Ok match requests_get env w (lookup_request url_) with
        | Some r =>
            match json_body r with
            | Some data =>
                match snapshot_url_field data with
                | Some v => v
                | None => JNull
                end
            | None => JNull
            end
        | None => JNull
        end,
     logged w (EvLookup (lookup_request url_))).
Proof.
  unfold get_wayback_url, try_except, bind at 1. rewrite http_get_eq.
  destruct (requests_get env w (lookup_request url_)) as [r|]; [|reflexivity].
  unfold bind, lift, ret.
  destruct (json_body r) as [data|]; [|reflexivity].
  destruct data as [|b|n|s|l|d]; try reflexivity.
  cbn [py_get snapshot_url_field].
  destruct (dict_lookup d "archived_snapshots") as [snapshots|]; [|reflexivity].
  destruct (json_truthy snapshots) eqn:Ts.
  2:{ destruct snapshots as [|b|n|s|l|sd]; try reflexivity.
      now rewrite (dict_lookup_falsy _ _ Ts). }
  destruct snapshots as [|b|n|s|l|sd]; try reflexivity.
  cbn [py_get].
  destruct (dict_lookup sd "closest") as [closest|]; [|reflexivity].
  destruct (json_truthy closest) eqn:Tc.
  2:{ destruct closest as [|b|n|s|l|cd]; try reflexivity.
      now rewrite (dict_lookup_falsy _ _ Tc). }
  destruct closest as [|b|n|s|l|cd]; try reflexivity.
  cbn [py_index].
  destruct (dict_lookup cd "url"); reflexivity.
Qed.
End FetchFacts.

(** ** C8: the archive lookup never raises *)



(** ** C2: the file name *)




(** ** C5: the classification of a fetch *)

Lemma free_path_fresh (files : filesystem) (output_path q : string) :
  free_path files output_path = Some q -> fs_exists files q = false.
Proof.
  unfold free_path. destruct (Path.splitext output_path) as [base ext].
  intros H. now apply free_path_loop_some in H.
Qed.

Section SaveFacts.
Variable env : Env.

Lemma os_open_wb_eq (path : string) (w : world) :
  os_open_wb env path w
  = if os_fails env (logged w (EvOpen path)) (OpOpen path)
    then (Raise (OSError (OpOpen path)), logged w (EvOpen path))
    else (Ok tt, {| fs := fs_set (fs w) path (File ""); trace := trace w ++ [EvOpen path] |}).
Proof.
  unfold os_open_wb, os_call, bind, log, get_world, set_fs, raise.
  fold (logged w (EvOpen path)).
  destruct (os_fails env (logged w (EvOpen path)) (OpOpen path)); reflexivity.
Qed.

(** A file that was saved exists. *)
Lemma save_ok_exists (r : response) (path : string) (w w' : world) (u : unit) :
  save env r path w = (Ok u, w') -> fs_exists (fs w') path = true.
Proof.
  unfold save. unfold bind at 1.
  assert (Hcheck :
            forall c : M unit,
              c = (match headers_get (headers r) "content-length" with
                   | Some v => if int_parses v then ret tt else raise ValueError
                   | None => ret tt
                   end) ->
              c w = (Ok tt, w) \/ c w = (Raise ValueError, w)).
  { intros c ->. destruct (headers_get (headers r) "content-length") as [v|];
      [destruct (int_parses v)|]; auto. }
  destruct (Hcheck _ eq_refl) as [-> | ->]; [|discriminate].
  unfold bind at 1. rewrite os_open_wb_eq.
  destruct (os_fails env (logged w (EvOpen path)) (OpOpen path)); [discriminate|].
  intros H. apply (sound_write_chunks env (fun _ => True)) in H.
  destruct H as [_ [Hm _]]. apply Hm. simpl.
  rewrite fs_exists_set, String.eqb_refl. apply orb_true_r.
Qed.
End SaveFacts.




(** ** C9: the page test comes before the status test *)

Section ProcessFacts.
Variable env : Env.

Lemma ensure_dir_eq (output_dir : string) (w : world) :
  ensure_dir env output_dir w
  = if fs_exists (fs w) output_dir then (Ok tt, w)
    else if os_fails env (logged w (EvMakedirs output_dir)) (OpMakedirs output_dir)
         then (Raise (OSError (OpMakedirs output_dir)), logged w (EvMakedirs output_dir))
         else (Ok tt, {| fs := fs_set (fs w) output_dir Dir;
                         trace := trace w ++ [EvMakedirs output_dir] |}).
Proof.
  unfold ensure_dir, bind at 1, get_world.
  destruct (fs_exists (fs w) output_dir); [reflexivity|].
  unfold negb, os_makedirs, os_call, bind, log, get_world, set_fs, raise.
  fold (logged w (EvMakedirs output_dir)).
  destruct (os_fails env (logged w (EvMakedirs output_dir)) (OpMakedirs output_dir));
    reflexivity.
Qed.

Lemma process_url_step (fuel : nat) (url_ output_dir : string) (try_wayback : bool)
      (w : world) :
  fs_exists (fs w) output_dir = true ->
  process_url env (S fuel) url_ output_dir try_wayback w
  = resolve env (process_url env fuel) url_ output_dir try_wayback w.
Proof.
  intros Hd. simpl process_url. unfold bind at 1. rewrite ensure_dir_eq, Hd. reflexivity.
Qed.
End ProcessFacts.

(** C9.  The page test of [download_file] does not look at the status: a
    response whose content type contains [text/html], for a URL without a
    recognized audio extension, is an [HtmlPage] outcome whatever its
    status, a 404 too, and [process_url] goes on to try the candidates
    found in its body; a status of 400 to 599 yields [Failed] only when
    the response is taken as binary. *)
Theorem download_file_html_before_status
        (env : Env) (url_ output_dir : string) (referer : option string)
        (w : world) (r : response) :
  requests_get env w (fetch_request url_ referer) = Some r ->
  let w1 := logged w (EvFetch (fetch_request url_ referer)) in
  let html := Py.contains "text/html" (content_type_of r) && negb (is_audio_url url_) in
  (html = true ->
   download_file env url_ output_dir referer w = (Ok (HtmlPage (text r) (url r)), w1))
  /\ (html = true -> referer = None -> fs_exists (fs w) output_dir = true ->
      text r <> "" ->
      forall fuel try_wayback path w2,
        try_candidates env (find_audio_on_page (html_lib env) (text r) (url r))
                       output_dir (url r) w1 = (Ok (Some path), w2) ->
        process_url env (S fuel) url_ output_dir try_wayback w = (Ok (Some path), w2))
  /\ (html = true -> referer = None -> fs_exists (fs w) output_dir = true ->
      text r <> "" ->
      forall fuel try_wayback w2,
        try_candidates env (find_audio_on_page (html_lib env) (text r) (url r))
                       output_dir (url r) w1 = (Ok None, w2) ->
        process_url env (S fuel) url_ output_dir try_wayback w
        = archive_fallback env (process_url env fuel) url_ output_dir try_wayback w2)
  /\ (html = false -> is_error_status (status_code r) = true ->
      download_file env url_ output_dir referer w = (Ok Failed, w1)).
Proof.
  intros Hr w1 html.
  assert (Hpage : html = true ->
                  download_file env url_ output_dir referer w
                  = (Ok (HtmlPage (text r) (url r)), w1)).
  { intros Hh. rewrite download_file_eq, Hr. fold html. now rewrite Hh. }
  assert (Hscan : html = true -> referer = None ->
                  fs_exists (fs w) output_dir = true -> text r <> "" ->
                  forall fuel try_wayback found w2,
                    try_candidates env
                      (find_audio_on_page (html_lib env) (text r) (url r))
                      output_dir (url r) w1 = (Ok found, w2) ->
                    process_url env (S fuel) url_ output_dir try_wayback w
                    = match found with
                      | Some path => (Ok (Some path), w2)
                      | None => archive_fallback env (process_url env fuel)
                                                 url_ output_dir try_wayback w2
                      end).
  { intros Hh Href Hd Hne fuel try_wayback found w2 Hc. subst referer.
    rewrite process_url_step by assumption.
    unfold resolve, bind at 1. rewrite (Hpage Hh).
    unfold bind at 1. unfold scan_page.
    assert (Hn : Py.nonempty (text r) = true).
    { unfold Py.nonempty. apply negb_true_iff. now apply String.eqb_neq. }
    rewrite Hn. fold w1. rewrite Hc. now destruct found. }
  split; [exact Hpage|]. split; [|split].
  - intros Hh Href Hd Hne fuel try_wayback path w2 Hc.
    now rewrite (Hscan Hh Href Hd Hne fuel try_wayback (Some path) w2 Hc).
  - intros Hh Href Hd Hne fuel try_wayback w2 Hc.
    now rewrite (Hscan Hh Href Hd Hne fuel try_wayback None w2 Hc).
  - intros Hh He. rewrite download_file_eq, Hr. fold html. now rewrite Hh, He.
Qed.

Lemma download_file_html_before_status_witness :
  is_error_status 404 = true
  /\ download_file Web.env "http://host/dir/missing" "downloads" None Web.with_downloads
     = (Ok (HtmlPage Ex.page_ab "http://host/dir/missing"),
        logged Web.with_downloads (EvFetch (fetch_request "http://host/dir/missing" None)))
  /\ fst (process_url Web.env 1 "http://host/dir/missing" "downloads" true
            Web.with_downloads)
     = Ok (Some "downloads/b.mp3").
Proof.
  pose proof (download_file_html_before_status Web.env "http://host/dir/missing"
                "downloads" None Web.with_downloads
                (Web.html_response 404 "http://host/dir/missing" Ex.page_ab) eq_refl)
    as [Hpage [Hscan _]].
  split; [reflexivity|]. split; [apply Hpage; reflexivity|].
  erewrite Hscan; [reflexivity|reflexivity|reflexivity|reflexivity|discriminate|].
  vm_compute. reflexivity.
Defined.

(** ** C6: a path that is free *)

(** C6.  The search for a free path always ends, at a path that does not
    exist: the path itself when it is free, else the path with [_k] put
    before its extension, for the least [k] from 1 on that is free.  A file
    [download_file] reports as downloaded was created at a path that did
    not exist when the call began.  Two files named [clip.mp3] saved to one
    directory get [clip.mp3] and [clip_1.mp3]. *)
Theorem free_path_is_free :
  (forall files output_path base ext,
      Path.splitext output_path = (base, ext) ->
      (base ++ ext)%string = output_path
      /\ exists p,
          free_path files output_path = Some p
          /\ fs_exists files p = false
          /\ ((fs_exists files output_path = false /\ p = output_path)
              \/ (fs_exists files output_path = true
                  /\ exists k, 1 <= k /\ p = numbered base ext k
                               /\ forall j, 1 <= j < k ->
                                            fs_exists files (numbered base ext j) = true)))
  /\ (forall env url_ output_dir referer w p w',
         download_file env url_ output_dir referer w = (Ok (Downloaded p), w') ->
         fs_exists (fs w) p = false /\ fs_exists (fs w') p = true)
  /\ (forall files data,
         fs_exists files "downloads/clip.mp3" = false ->
         fs_exists files "downloads/clip_1.mp3" = false ->
         free_path files (Path.join "downloads" "clip.mp3") = Some "downloads/clip.mp3"
         /\ free_path (fs_set files "downloads/clip.mp3" (File data))
                      (Path.join "downloads" "clip.mp3")
            = Some "downloads/clip_1.mp3").
Proof.
  split; [|split].
  - intros files output_path base ext Hs.
    split; [now apply splitext_concat|].
    destruct (free_path_total files output_path) as [p Hp].
    exists p. split; [assumption|].
    unfold free_path in Hp. rewrite Hs in Hp.
    apply free_path_loop_some in Hp. exact Hp.
  - intros env url_ output_dir referer w p w' H.
    rewrite download_file_eq in H. cbv zeta in H.
    destruct (requests_get env w (fetch_request url_ referer)) as [r|]; [|discriminate].
    destruct (Py.contains "text/html" (content_type_of r) && negb (is_audio_url url_));
      [discriminate|].
    destruct (is_error_status (status_code r)); [discriminate|].
    destruct (free_path (fs w)
                (Path.join output_dir (derive_filename env r (content_type_of r))))
      as [q|] eqn:Hq; [|discriminate].
    destruct (save env r q (logged w (EvFetch (fetch_request url_ referer))))
      as [[[]|e|] w2] eqn:Es; try discriminate.
    injection H as <- <-. split.
    + eapply free_path_fresh; eassumption.
    + eapply save_ok_exists; eassumption.
  - intros files data H0 H1.
    unfold free_path.
    change (Path.splitext (Path.join "downloads" "clip.mp3"))
      with ("downloads/clip", ".mp3").
    change (Path.join "downloads" "clip.mp3") with "downloads/clip.mp3".
    split.
    + rewrite Nat.add_comm. cbn [Nat.add free_path_loop]. now rewrite H0.
    + rewrite Nat.add_comm. cbn [Nat.add free_path_loop].
      rewrite fs_exists_set, H0, String.eqb_refl. cbn [orb].
      change (numbered "downloads/clip" ".mp3" 1) with "downloads/clip_1.mp3".
      rewrite fs_exists_set, H1. reflexivity.
Qed.

Lemma free_path_is_free_witness :
  (let w1 := snd (process_url Web.env 2 "http://host/clip.mp3" "downloads" true Web.empty) in
   fst (process_url Web.env 2 "http://host/clip.mp3" "downloads" true Web.empty)
   = Ok (Some "downloads/clip.mp3")
   /\ fst (process_url Web.env 2 "http://host/clip.mp3" "downloads" true w1)
      = Ok (Some "downloads/clip_1.mp3")
   /\ fs_exists (fs w1) "downloads/clip_1.mp3" = false)
  /\ free_path [("downloads", Dir)] (Path.join "downloads" "clip.mp3")
     = Some "downloads/clip.mp3".
Proof.
  split.
  - cbv zeta. split; [vm_compute; reflexivity|]. split; [vm_compute; reflexivity|].
    eapply (proj1 (proj2 free_path_is_free) Web.env "http://host/clip.mp3" "downloads" None).
    vm_compute. reflexivity.
  - apply (proj2 (proj2 free_path_is_free) [("downloads", Dir)] ""); reflexivity.
Defined.

(** ** The whole resolution *)

Lemma lookups_app (a b : list event) : lookups (a ++ b) = lookups a ++ lookups b.
Proof. apply filter_app. Qed.

Lemma lookups_fetch_events (evs : list event) :
  Forall fetch_event evs -> lookups evs = [].
Proof.
  induction 1 as [|e evs He _ IH]; [reflexivity|].
  destruct e; simpl in *; try contradiction; exact IH.
Qed.

Lemma resolution_trace_lookups (url_ : string) (try_wayback : bool) (evs : list event) :
  resolution_trace url_ try_wayback evs ->
  lookups evs = []
  \/ (try_wayback = true /\ lookups evs = [EvLookup (lookup_request url_)]).
Proof.
  intros [evs1 [lk [evs2 [-> [H1 [H2 Hlk]]]]]].
  rewrite !lookups_app, (lookups_fetch_events _ H1), (lookups_fetch_events _ H2).
  destruct Hlk as [-> | [Ht ->]]; [now left|right]. split; [assumption|reflexivity].
Qed.

Section Resolution.
Variable env : Env.

(** Without the fallback a resolution is fetches only. *)
Lemma resolve_no_fallback_returns
      (recurse : string -> string -> bool -> M (option string))
      (url_ output_dir : string) :
  returns fetch_event (resolve env recurse url_ output_dir false).
Proof.
  unfold resolve. apply returns_bind; [apply download_file_returns|].
  intros o.
  assert (Htail : returns fetch_event
                    (found <- scan_page env o output_dir ;;
                     match found with
                     | Some path => ret (Some path)
                     | None => archive_fallback env recurse url_ output_dir false
                     end)).
  { apply returns_bind; [apply scan_page_returns|].
    intros [path|]; apply returns_ret. }
  destruct o; [apply returns_ret|exact Htail|exact Htail].
Qed.

Lemma process_url_inner (fuel : nat) (url_ output_dir : string) (w : world) :
  fs_exists (fs w) output_dir = true ->
  exists v w',
    process_url env (S fuel) url_ output_dir false w = (Ok v, w')
    /\ extends fetch_event w w'.
Proof.
  intros Hd. rewrite process_url_step by assumption.
  apply resolve_no_fallback_returns.
Qed.

Lemma archive_fallback_run (fuel : nat) (url_ output_dir : string) (try_wayback : bool)
      (w : world) :
  fs_exists (fs w) output_dir = true ->
  exists v w' lk evs2,
    archive_fallback env (process_url env (S fuel)) url_ output_dir try_wayback w
    = (Ok v, w')
    /\ fs_mono (fs w) (fs w')
    /\ trace w' = trace w ++ lk ++ evs2
    /\ Forall fetch_event evs2
    /\ (lk = [] \/ (try_wayback = true /\ lk = [EvLookup (lookup_request url_)])).
Proof.
  intros Hd. unfold archive_fallback.
  assert (Hnone : forall w0 : world,
             exists v w' lk evs2,
               (Ok (@None string), w0) = (Ok v, w')
               /\ fs_mono (fs w0) (fs w')
               /\ trace w' = trace w0 ++ lk ++ evs2
               /\ Forall fetch_event evs2
               /\ (lk = [] \/ (try_wayback = true
                               /\ lk = [EvLookup (lookup_request url_)]))).
  { intros w0. exists None, w0, [], []. split; [reflexivity|].
    split; [apply fs_mono_refl|]. split; [now rewrite !app_nil_r|].
    split; [constructor|now left]. }
  destruct try_wayback; [|apply Hnone].
  unfold bind at 1. rewrite get_wayback_url_eq.
  set (wb_url := match requests_get env w (lookup_request url_) with
                 | Some r => _
                 | None => JNull
                 end).
  set (w1 := logged w (EvLookup (lookup_request url_))).
  assert (Hd1 : fs_exists (fs w1) output_dir = true) by exact Hd.
  assert (Hstop : exists v w' lk evs2,
             (Ok (@None string), w1) = (Ok v, w')
             /\ fs_mono (fs w) (fs w')
             /\ trace w' = trace w ++ lk ++ evs2
             /\ Forall fetch_event evs2
             /\ (lk = [] \/ (true = true /\ lk = [EvLookup (lookup_request url_)]))).
  { exists None, w1, [EvLookup (lookup_request url_)], [].
    split; [reflexivity|]. split; [apply fs_mono_refl|].
    split; [now rewrite app_nil_r|]. split; [constructor|right; now split]. }
  assert (Hother : (ensure_dir env output_dir ;; ret (@None string)) w1
                   = (Ok None, w1)).
  { unfold bind. rewrite ensure_dir_eq, Hd1. reflexivity. }
  destruct (json_truthy wb_url); [|exact Hstop].
  destruct wb_url as [|b|n|s|l|d]; try (rewrite Hother; exact Hstop).
  destruct (process_url_inner fuel s output_dir w1 Hd1) as [v [w' [E [Hm [evs [Ht Hf]]]]]].
  exists v, w', [EvLookup (lookup_request url_)], evs.
  split; [exact E|]. split; [exact Hm|].
  split; [rewrite Ht; unfold w1, logged; simpl; now rewrite <- app_assoc|].
  split; [exact Hf|right; now split].
Qed.

Lemma resolve_run (fuel : nat) (url_ output_dir : string) (try_wayback : bool)
      (w : world) :
  fs_exists (fs w) output_dir = true ->
  exists v w' evs,
    resolve env (process_url env (S fuel)) url_ output_dir try_wayback w = (Ok v, w')
    /\ fs_mono (fs w) (fs w')
    /\ trace w' = trace w ++ evs
    /\ resolution_trace url_ try_wayback evs.
Proof.
  intros Hd. unfold resolve, bind at 1.
  destruct (download_file_returns env url_ output_dir None w)
    as [o [w1 [E1 [Hm1 [evs1 [Ht1 Hf1]]]]]].
  rewrite E1.
  assert (Htail : exists v w' evs,
             (found <- scan_page env o output_dir ;;
              match found with
              | Some path => ret (Some path)
              | None => archive_fallback env (process_url env (S fuel))
                                         url_ output_dir try_wayback
              end) w1 = (Ok v, w')
             /\ fs_mono (fs w) (fs w')
             /\ trace w' = trace w ++ evs
             /\ resolution_trace url_ try_wayback evs).
  { unfold bind at 1.
    destruct (scan_page_returns env o output_dir w1)
      as [found [w2 [E2 [Hm2 [evs2 [Ht2 Hf2]]]]]].
    rewrite E2. destruct found as [path|].
    - exists (Some path), w2, (evs1 ++ evs2).
      split; [reflexivity|]. split; [eapply fs_mono_trans; eassumption|].
      split; [now rewrite Ht2, Ht1, app_assoc|].
      exists (evs1 ++ evs2), [], []. rewrite !app_nil_r.
      split; [reflexivity|]. split; [now apply Forall_app|].
      split; [constructor|now left].
    - destruct (archive_fallback_run fuel url_ output_dir try_wayback w2)
        as [v [w' [lk [evs3 [E3 [Hm3 [Ht3 [Hf3 Hlk]]]]]]]].
      { apply Hm2, Hm1, Hd. }
      exists v, w', ((evs1 ++ evs2) ++ lk ++ evs3).
      split; [exact E3|].
      split; [eapply fs_mono_trans; [|exact Hm3]; eapply fs_mono_trans; eassumption|].
      split; [rewrite Ht3, Ht2, Ht1; now rewrite !app_assoc|].
      exists (evs1 ++ evs2), lk, evs3.
      split; [reflexivity|]. split; [now apply Forall_app|]. now split. }
  destruct o as [path| |]; [|exact Htail|exact Htail].
  exists (Some path), w1, evs1. split; [reflexivity|]. split; [exact Hm1|].
  split; [exact Ht1|].
  exists evs1, [], []. rewrite !app_nil_r.
  split; [reflexivity|]. split; [assumption|]. split; [constructor|now left].
Qed.

(** [process_url] from the start: the directory is there, or it cannot be
    made, or it is made. *)
Lemma process_url_run (fuel : nat) (url_ output_dir : string) (try_wayback : bool)
      (w : world) :
  let mk := EvMakedirs output_dir in
  let run := process_url env (S (S fuel)) url_ output_dir try_wayback w in
  (fs_exists (fs w) output_dir = true ->
   exists v w' evs,
     run = (Ok v, w') /\ fs_mono (fs w) (fs w')
     /\ trace w' = trace w ++ evs /\ resolution_trace url_ try_wayback evs)
  /\ (fs_exists (fs w) output_dir = false ->
      os_fails env (logged w mk) (OpMakedirs output_dir) = true ->
      run = (Raise (OSError (OpMakedirs output_dir)), logged w mk))
  /\ (fs_exists (fs w) output_dir = false ->
      os_fails env (logged w mk) (OpMakedirs output_dir) = false ->
      exists v w' evs,
        run = (Ok v, w') /\ fs_mono (fs w) (fs w')
        /\ fs_exists (fs w') output_dir = true
        /\ trace w' = trace w ++ mk :: evs /\ resolution_trace url_ try_wayback evs).
Proof.
  intros mk run. unfold run. split; [|split].
  - intros Hd. rewrite process_url_step by assumption. now apply resolve_run.
  - intros Hd Hf. simpl process_url. unfold bind at 1.
    rewrite ensure_dir_eq, Hd. fold mk. rewrite Hf. reflexivity.
  - intros Hd Hf. simpl process_url. unfold bind at 1.
    rewrite ensure_dir_eq, Hd. fold mk. rewrite Hf.
    set (w0 := {| fs := fs_set (fs w) output_dir Dir; trace := trace w ++ [mk] |}).
    assert (Hd0 : fs_exists (fs w0) output_dir = true).
    { simpl. rewrite fs_exists_set, String.eqb_refl. apply orb_true_r. }
    destruct (resolve_run fuel url_ output_dir try_wayback w0 Hd0)
      as [v [w' [evs [E [Hm [Ht Hr]]]]]].
    exists v, w', evs. split; [exact E|].
    split; [eapply fs_mono_trans; [|exact Hm]; apply fs_mono_set|].
    split; [apply Hm, Hd0|].
    split; [rewrite Ht; simpl; now rewrite <- app_assoc|exact Hr].
Qed.
End Resolution.

(** ** Fuel: two levels are all there is *)

(** Open the first [bind] on both sides of an equation between runs. *)
Ltac both_binds := unfold bind at 1; symmetry; unfold bind at 1; symmetry.

Section Fuel.
Variable env : Env.

Lemma resolve_ext (rec1 rec2 : string -> string -> bool -> M (option string))
      (url_ output_dir : string) (try_wayback : bool) (w : world) :
  (forall s w0, rec1 s output_dir false w0 = rec2 s output_dir false w0) ->
  resolve env rec1 url_ output_dir try_wayback w
  = resolve env rec2 url_ output_dir try_wayback w.
Proof.
  intros Hrec.
  assert (Hfb : forall w0,
             archive_fallback env rec1 url_ output_dir try_wayback w0
             = archive_fallback env rec2 url_ output_dir try_wayback w0).
  { intros w0. unfold archive_fallback. destruct try_wayback; [|reflexivity].
    unfold bind.
    destruct (get_wayback_url env url_ w0) as [[v| |] w1]; try reflexivity.
    destruct (json_truthy v); [|reflexivity].
    destruct v; try reflexivity. apply Hrec. }
  unfold resolve. both_binds.
  destruct (download_file env url_ output_dir None w) as [[o| |] w1]; try reflexivity.
  assert (Htail : forall o',
             (found <- scan_page env o' output_dir ;;
              match found with
              | Some path => ret (Some path)
              | None => archive_fallback env rec1 url_ output_dir try_wayback
              end) w1
             = (found <- scan_page env o' output_dir ;;
                match found with
                | Some path => ret (Some path)
                | None => archive_fallback env rec2 url_ output_dir try_wayback
                end) w1).
  { intros o'. both_binds.
    destruct (scan_page env o' output_dir w1) as [[[path|]| |] w2];
      try reflexivity. apply Hfb. }
  destruct o; [reflexivity|apply Htail|apply Htail].
Qed.

Lemma process_url_fuel_inner (fuel : nat) (url_ output_dir : string) (w : world) :
  process_url env (S fuel) url_ output_dir false w
  = process_url env 1 url_ output_dir false w.
Proof. reflexivity. Qed.

Lemma process_url_fuel (fuel : nat) (url_ output_dir : string) (try_wayback : bool)
      (w : world) :
  process_url env (S (S fuel)) url_ output_dir try_wayback w
  = process_url env 2 url_ output_dir try_wayback w.
Proof.
  change (process_url env (S (S fuel)) url_ output_dir try_wayback)
    with (ensure_dir env output_dir ;;
          resolve env (process_url env (S fuel)) url_ output_dir try_wayback).
  change (process_url env 2 url_ output_dir try_wayback)
    with (ensure_dir env output_dir ;;
          resolve env (process_url env 1) url_ output_dir try_wayback).
  both_binds.
  destruct (ensure_dir env output_dir w) as [[[]| |] w0];
    [|reflexivity|reflexivity].
  apply resolve_ext. intros s w1. apply process_url_fuel_inner.
Qed.
End Fuel.

(** ** C4: one archive fallback at most *)

(** C4.  With fuel for two levels [process_url] always ends, and more fuel
    changes nothing: the recursive call has the fallback switched off, so
    it cannot recurse again.  A run makes at most one snapshot lookup, for
    the URL it was given, and none when the fallback is switched off. *)
Theorem process_url_single_fallback
        (env : Env) (fuel : nat) (url_ output_dir : string) (try_wayback : bool)
        (w : world) :
  2 <= fuel ->
  exists res w',
    process_url env fuel url_ output_dir try_wayback w = (res, w')
    /\ res <> Diverged
    /\ (lookups (trace w') = lookups (trace w)
        \/ (try_wayback = true
            /\ lookups (trace w')
               = lookups (trace w) ++ [EvLookup (lookup_request url_)]))
    /\ process_url env 2 url_ output_dir try_wayback w = (res, w').
Proof.
  intros Hfuel. destruct fuel as [|[|fuel]]; try lia.
  assert (Hlk : forall w' evs,
             trace w' = trace w ++ evs ->
             lookups evs = []
             \/ (try_wayback = true /\ lookups evs = [EvLookup (lookup_request url_)]) ->
             lookups (trace w') = lookups (trace w)
             \/ (try_wayback = true
                 /\ lookups (trace w')
                    = lookups (trace w) ++ [EvLookup (lookup_request url_)])).
  { intros w' evs Ht Hr. rewrite Ht, lookups_app.
    destruct Hr as [-> | [Htw ->]].
    - left. apply app_nil_r.
    - right. now split. }
  destruct (process_url_run env fuel url_ output_dir try_wayback w)
    as [Hthere [Hfail Hmade]].
  destruct (fs_exists (fs w) output_dir) eqn:Hd.
  - destruct (Hthere eq_refl) as [v [w' [evs [E [_ [Ht Hr]]]]]].
    exists (Ok v), w'. split; [exact E|]. split; [discriminate|].
    split; [|now rewrite <- (process_url_fuel env fuel)].
    apply (Hlk w' evs Ht). eapply resolution_trace_lookups; eassumption.
  - destruct (os_fails env (logged w (EvMakedirs output_dir)) (OpMakedirs output_dir))
      eqn:Hf.
    + exists (Raise (OSError (OpMakedirs output_dir))), (logged w (EvMakedirs output_dir)).
      split; [now apply Hfail|]. split; [discriminate|].
      split; [left; simpl; rewrite lookups_app; apply app_nil_r|].
      rewrite <- (process_url_fuel env fuel). now apply Hfail.
    + destruct (Hmade eq_refl eq_refl) as [v [w' [evs [E [_ [_ [Ht Hr]]]]]]].
      exists (Ok v), w'. split; [exact E|]. split; [discriminate|].
      split; [|now rewrite <- (process_url_fuel env fuel)].
      apply (Hlk w' (EvMakedirs output_dir :: evs) Ht).
      (* the creation of the directory is no lookup *)
      change (lookups (EvMakedirs output_dir :: evs)) with (lookups evs).
      eapply resolution_trace_lookups; eassumption.
Qed.

(** The archived copy is again a page without audio, and a second snapshot
    exists: it is never asked for. *)
Lemma process_url_single_fallback_witness :
  (exists res w',
      process_url Web.env 5 "http://host/gone.html" "downloads" true Web.with_downloads
      = (res, w')
      /\ res <> Diverged
      /\ (lookups (trace w') = lookups (trace Web.with_downloads)
          \/ (true = true
              /\ lookups (trace w')
                 = lookups (trace Web.with_downloads)
                   ++ [EvLookup (lookup_request "http://host/gone.html")]))
      /\ process_url Web.env 2 "http://host/gone.html" "downloads" true Web.with_downloads
         = (res, w'))
  /\ requests_get Web.env Web.with_downloads (lookup_request Web.archived)
     = Some (Web.json_response (Web.snapshot Web.archived_again))
  /\ fst (process_url Web.env 5 "http://host/gone.html" "downloads" true Web.with_downloads)
     = Ok None
  /\ trace (snd (process_url Web.env 5 "http://host/gone.html" "downloads" true
                   Web.with_downloads))
     = [EvFetch (fetch_request "http://host/gone.html" None);
        EvLookup (lookup_request "http://host/gone.html");
        EvFetch (fetch_request Web.archived None)].
Proof.
  split.
  - apply (process_url_single_fallback Web.env 5 "http://host/gone.html" "downloads" true
             Web.with_downloads).
    lia.
  - split; [reflexivity|]. split; vm_compute; reflexivity.
Defined.

(** ** C10: the output directory *)




(** ** C3: which failures are absorbed *)




(** * Further properties of the code *)

(** ** Characters of a string *)

Lemma append_assoc (a b c : string) : ((a ++ b) ++ c)%string = (a ++ (b ++ c))%string.
Proof. induction a; simpl; congruence. Qed.

Lemma has_char_app (c : ascii) (a b : string) :
  Py.has_char c (a ++ b) = Py.has_char c a || Py.has_char c b.
Proof.
  induction a as [|d a IH]; simpl; [reflexivity|]. now rewrite IH, orb_assoc.
Qed.

Lemma has_char_substring (c : ascii) (n m : nat) (s : string) :
  Py.has_char c s = false -> Py.has_char c (substring n m s) = false.
Proof.
  revert n m. induction s as [|d s IH]; intros n m H.
  - now destruct n, m.
  - simpl in H. apply orb_false_iff in H. destruct H as [Hd Hs].
    destruct n as [|n]; [destruct m as [|m]|]; simpl; [reflexivity| |now apply IH].
    rewrite Hd. now apply IH.
Qed.

Lemma existsb_ascii_In (c : ascii) (l : list ascii) :
  existsb (Ascii.eqb c) l = true <-> In c l.
Proof.
  rewrite existsb_exists. split.
  - intros [d [Hin E]]. apply Ascii.eqb_eq in E. now subst.
  - intros Hin. exists c. split; [assumption|apply Ascii.eqb_refl].
Qed.

(** ** [clean_filename] *)

Lemma has_char_clean (c : ascii) (f : string) :
  Py.has_char c (clean_filename f)
  = Py.has_char c f && negb (existsb (Ascii.eqb c) forbidden_chars).
Proof.
  induction f as [|d f IH]; [reflexivity|].
  cbn [clean_filename Py.has_char].
  destruct (existsb (Ascii.eqb d) forbidden_chars) eqn:Ed.
  - rewrite IH. destruct (c =? d)%char eqn:Ecd; [|reflexivity].
    apply Ascii.eqb_eq in Ecd. subst d. rewrite Ed. simpl. now rewrite andb_false_r.
  - cbn [Py.has_char]. rewrite IH. destruct (c =? d)%char eqn:Ecd; [|reflexivity].
    apply Ascii.eqb_eq in Ecd. subst d. rewrite Ed. reflexivity.
Qed.




(** ** The name of the saved file *)

Lemma guessed_ext_dotted (content_type : string) :
  Py.has_char "." ("downloaded_audio" ++ guessed_ext content_type) = true.
Proof.
  unfold guessed_ext.
  destruct (Py.contains "wav" content_type); [reflexivity|].
  destruct (Py.contains "ogg" content_type); reflexivity.
Qed.

Lemma chosen_filename_dotted (env : Env) (r : response) (content_type : string) :
  Py.has_char "." (chosen_filename env r content_type) = true.
Proof.
  unfold chosen_filename.
  match goal with
  | |- context [match ?x with Some _ => _ | None => _ end] => destruct x as [f|]
  end; [|apply guessed_ext_dotted].
  destruct (negb (Py.nonempty f) || negb (Py.has_char "." f)) eqn:E;
    [apply guessed_ext_dotted|].
  apply orb_false_iff in E. destruct E as [_ E]. now apply negb_false_iff in E.
Qed.

Lemma derive_filename_chars (env : Env) (r : response) (content_type : string) :
  Py.has_char "." (derive_filename env r content_type) = true
  /\ forall c, In c forbidden_chars ->
               Py.has_char c (derive_filename env r content_type) = false.
Proof.
  split.
  - unfold derive_filename. rewrite has_char_clean, chosen_filename_dotted.
    reflexivity.
  - intros c Hc. unfold derive_filename. rewrite has_char_clean.
    apply existsb_ascii_In in Hc. rewrite Hc. apply andb_false_r.
Qed.

(** X2.  The name [download_file] saves under always contains a dot, so
    it is never empty, and none of the characters that [clean_filename]
    forbids, whatever the server sent: no path separator in
    particular. *)
Theorem derive_filename_safe (env : Env) (r : response) (content_type : string) :
  Py.has_char "." (derive_filename env r content_type) = true
  /\ derive_filename env r content_type <> ""
  /\ forall c, In c forbidden_chars ->
               Py.has_char c (derive_filename env r content_type) = false.
Proof.
  destruct (derive_filename_chars env r content_type) as [Hdot Hforb].
  split; [exact Hdot|]. split; [|exact Hforb].
  intros E. rewrite E in Hdot. discriminate.
Qed.

Lemma derive_filename_safe_witness :
  Py.has_char "/"
    (derive_filename Web.env
       (Web.audio_response 200 "http://host/a.mp3"
          [("Content-Disposition", "attachment; filename=../../x.mp3")])
       "audio/mpeg") = false.
Proof.
  apply (proj2 (proj2 (derive_filename_safe Web.env
           (Web.audio_response 200 "http://host/a.mp3"
              [("Content-Disposition", "attachment; filename=../../x.mp3")])
           "audio/mpeg"))).
  simpl. auto.
Defined.

(** ** Entries of the file system *)

Lemma fs_exists_lookup (files : filesystem) (path : string) :
  fs_exists files path
  = match fs_lookup files path with Some _ => true | None => false end.
Proof.
  unfold fs_exists. induction files as [|[q e] files IH]; simpl; [reflexivity|].
  destruct (q =? path); [reflexivity|exact IH].
Qed.

Lemma fs_lookup_set_eq (files : filesystem) (path : string) (e : entry) :
  fs_lookup (fs_set files path e) path = Some e.
Proof.
  induction files as [|[q e'] files IH]; simpl.
  - now rewrite String.eqb_refl.
  - destruct (q =? path) eqn:E; simpl; rewrite E; [reflexivity|exact IH].
Qed.

Lemma fs_lookup_set_ne (files : filesystem) (path q : string) (e : entry) :
  q <> path -> fs_lookup (fs_set files path e) q = fs_lookup files q.
Proof.
  intros Hne. induction files as [|[k e'] files IH]; simpl.
  - destruct (path =? q) eqn:E; [|reflexivity].
    apply String.eqb_eq in E. congruence.
  - destruct (k =? path) eqn:E; simpl.
    + apply String.eqb_eq in E. subst k.
      destruct (path =? q) eqn:E'; [|reflexivity].
      apply String.eqb_eq in E'. congruence.
    + now rewrite IH.
Qed.

Lemma fs_lookup_append_eq (files : filesystem) (path chunk data : string) :
  fs_lookup files path = Some (File data) ->
  fs_lookup (fs_append files path chunk) path = Some (File (data ++ chunk)).
Proof.
  induction files as [|[k e'] files IH]; simpl; [discriminate|].
  destruct (k =? path) eqn:E; simpl; rewrite E.
  - intros H. injection H as ->. reflexivity.
  - exact IH.
Qed.

Lemma fs_lookup_append_ne (files : filesystem) (path chunk q : string) :
  q <> path -> fs_lookup (fs_append files path chunk) q = fs_lookup files q.
Proof.
  intros Hne. induction files as [|[k e'] files IH]; simpl; [reflexivity|].
  destruct (k =? path) eqn:E; simpl.
  - apply String.eqb_eq in E. subst k.
    destruct (path =? q) eqn:E'; [|reflexivity].
    apply String.eqb_eq in E'. congruence.
  - now rewrite IH.
Qed.

Lemma fs_preserved_refl (files : filesystem) : fs_preserved files files.
Proof. intros q _. reflexivity. Qed.

Lemma fs_preserved_trans (f1 f2 f3 : filesystem) :
  fs_preserved f1 f2 -> fs_preserved f2 f3 -> fs_preserved f1 f3.
Proof.
  intros H12 H23 q Hq. rewrite <- (H12 q Hq). apply H23.
  rewrite fs_exists_lookup, (H12 q Hq), <- fs_exists_lookup. exact Hq.
Qed.


(** Changing one path that was not there preserves the rest. *)
Lemma fs_preserved_fresh (f f' : filesystem) (path : string) :
  fs_exists f path = false ->
  (forall q, q <> path -> fs_lookup f' q = fs_lookup f q) ->
  fs_preserved f f'.
Proof.
  intros Hfresh Hothers q Hq. apply Hothers. intros ->. congruence.
Qed.

Lemma later_refl (w : world) : later w w.
Proof. split; [apply fs_preserved_refl|]. exists []. now rewrite app_nil_r. Qed.

Lemma later_trans (w1 w2 w3 : world) : later w1 w2 -> later w2 w3 -> later w1 w3.
Proof.
  intros [P12 [e12 T12]] [P23 [e23 T23]].
  split; [eapply fs_preserved_trans; eassumption|].
  exists (e12 ++ e23). now rewrite T23, T12, app_assoc.
Qed.

Lemma later_logged (w : world) (e : event) : later w (logged w e).
Proof. split; [apply fs_preserved_refl|]. now exists [e]. Qed.

(** ** What saving does *)

Section Saving.
Variable env : Env.

(** The chunks are written in order until one is refused: the file holds
    what was written, nothing else changes. *)
Lemma write_chunks_run (path : string) (chunks : list string) :
  forall (w : world) (data : string) (res : result unit) (w' : world),
    fs_lookup (fs w) path = Some (File data) ->
    write_chunks env path chunks w = (res, w') ->
    trace w' = trace w
    /\ (forall q, q <> path -> fs_lookup (fs w') q = fs_lookup (fs w) q)
    /\ exists written rest,
        chunks = written ++ rest
        /\ fs_lookup (fs w') path = Some (File (data ++ joined written))
        /\ ((res = Ok tt /\ rest = [])
            \/ exists c rest', rest = c :: rest'
                               /\ res = Raise (OSError (OpWrite path c))).
Proof.
  induction chunks as [|chunk chunks IH]; intros w data res w' Hfile Hrun.
  - injection Hrun as <- <-. split; [reflexivity|]. split; [reflexivity|].
    exists [], []. split; [reflexivity|]. simpl. rewrite append_nil_r.
    split; [assumption|left; now split].
  - cbn [write_chunks] in Hrun. unfold bind at 1 in Hrun.
    destruct (Py.nonempty chunk) eqn:Hne.
    + unfold file_write, os_call, bind at 1, get_world in Hrun.
      destruct (os_fails env w (OpWrite path chunk)) eqn:Hf.
      * injection Hrun as <- <-. split; [reflexivity|]. split; [reflexivity|].
        exists [], (chunk :: chunks). split; [reflexivity|]. simpl.
        rewrite append_nil_r. split; [assumption|].
        right. now exists chunk, chunks.
      * cbn [set_fs] in Hrun.
        apply (IH _ (data ++ chunk)%string) in Hrun;
          [|simpl; now apply fs_lookup_append_eq].
        destruct Hrun as [Ht [Ho [written [rest [Hc [Hl Hres]]]]]].
        split; [exact Ht|]. split.
        { intros q Hq. rewrite (Ho q Hq). simpl. now apply fs_lookup_append_ne. }
        exists (chunk :: written), rest. split; [now rewrite Hc|].
        split; [|exact Hres]. rewrite Hl. simpl. now rewrite append_assoc.
    + cbn [ret] in Hrun.
      apply (IH _ data) in Hrun; [|assumption].
      destruct Hrun as [Ht [Ho [written [rest [Hc [Hl Hres]]]]]].
      split; [exact Ht|]. split; [exact Ho|].
      exists (chunk :: written), rest. split; [now rewrite Hc|].
      split; [|exact Hres]. rewrite Hl. simpl.
      unfold Py.nonempty in Hne. apply negb_false_iff, String.eqb_eq in Hne.
      now rewrite Hne.
Qed.

(** [save]: a bad content-length stops it before the file is opened; a
    refused [open] stops it with nothing on disk; else the file is there
    with the chunks written before the first refused [write]. *)
Lemma save_run (r : response) (path : string) (w : world)
      (res : result unit) (w' : world) :
  save env r path w = (res, w') ->
  (forall q, q <> path -> fs_lookup (fs w') q = fs_lookup (fs w) q)
  /\ ((res = Raise ValueError /\ w' = w)
      \/ (res = Raise (OSError (OpOpen path)) /\ w' = logged w (EvOpen path))
      \/ (trace w' = trace w ++ [EvOpen path]
          /\ exists written rest,
              iter_content r = written ++ rest
              /\ fs_lookup (fs w') path = Some (File (joined written))
              /\ ((res = Ok tt /\ rest = [])
                  \/ exists c rest', rest = c :: rest'
                                     /\ res = Raise (OSError (OpWrite path c))))).
Proof.
  unfold save. unfold bind at 1.
  assert (Hcheck :
            forall c : M unit,
              c = (match headers_get (headers r) "content-length" with
                   | Some v => if int_parses v then ret tt else raise ValueError
                   | None => ret tt
                   end) ->
              c w = (Ok tt, w) \/ c w = (Raise ValueError, w)).
  { intros c ->. destruct (headers_get (headers r) "content-length") as [v|];
      [destruct (int_parses v)|]; auto. }
  destruct (Hcheck _ eq_refl) as [-> | ->].
  2:{ intros H. injection H as <- <-. split; [reflexivity|]. left. now split. }
  unfold bind at 1. rewrite os_open_wb_eq.
  destruct (os_fails env (logged w (EvOpen path)) (OpOpen path)).
  { intros H. injection H as <- <-. split; [reflexivity|]. right. left. now split. }
  intros H.
  apply (write_chunks_run path (iter_content r) _ "") in H;
    [|apply fs_lookup_set_eq].
  destruct H as [Ht [Ho Hw]]. split.
  - intros q Hq. rewrite (Ho q Hq). simpl. now apply fs_lookup_set_ne.
  - right. right. split; [exact Ht|]. exact Hw.
Qed.
End Saving.

(** ** One fetch, seen from outside *)

Section FetchRun.
Variable env : Env.

(** Every way [download_file] can end. *)
Lemma download_file_run (url_ output_dir : string) (referer : option string)
      (w : world) (res : result fetch_outcome) (w' : world) :
  download_file env url_ output_dir referer w = (res, w') ->
  let w1 := logged w (EvFetch (fetch_request url_ referer)) in
  (w' = w1
   /\ (res = Ok Failed
       \/ exists r, requests_get env w (fetch_request url_ referer) = Some r
                    /\ is_audio_url url_ = false
                    /\ res = Ok (HtmlPage (text r) (url r))))
  \/ exists r p,
      requests_get env w (fetch_request url_ referer) = Some r
      /\ free_path (fs w)
           (Path.join output_dir (derive_filename env r (content_type_of r))) = Some p
      /\ fs_exists (fs w) p = false
      /\ ((res = Ok Failed /\ w' = logged w1 (EvOpen p))
          \/ (trace w' = trace w1 ++ [EvOpen p]
              /\ (forall q, q <> p -> fs_lookup (fs w') q = fs_lookup (fs w) q)
              /\ exists written rest,
                  iter_content r = written ++ rest
                  /\ fs_lookup (fs w') p = Some (File (joined written))
                  /\ ((res = Ok (Downloaded p) /\ rest = [])
                      \/ (res = Ok Failed /\ rest <> [])))).
Proof.
  rewrite download_file_eq. cbv zeta.
  set (w1 := logged w (EvFetch (fetch_request url_ referer))).
  destruct (requests_get env w (fetch_request url_ referer)) as [r|] eqn:Hr.
  2:{ intros H. injection H as <- <-. left. split; [reflexivity|now left]. }
  destruct (Py.contains "text/html" (content_type_of r) && negb (is_audio_url url_))
    eqn:Hh.
  { intros H. injection H as <- <-. left. split; [reflexivity|]. right.
    exists r. split; [reflexivity|]. split; [|reflexivity].
    apply andb_true_iff in Hh. destruct Hh as [_ Hh]. now apply negb_true_iff in Hh. }
  destruct (is_error_status (status_code r)).
  { intros H. injection H as <- <-. left. split; [reflexivity|now left]. }
  destruct (free_path (fs w)
              (Path.join output_dir (derive_filename env r (content_type_of r))))
    as [p|] eqn:Hp.
  2:{ destruct (free_path_total (fs w)
                  (Path.join output_dir (derive_filename env r (content_type_of r))))
        as [q Hq]. congruence. }
  pose proof (free_path_fresh _ _ _ Hp) as Hfresh.
  destruct (save env r p w1) as [sres w2] eqn:Hs.
  pose proof (sound_save env r p _ _ _ Hs) as [Hnd _].
  apply save_run in Hs. destruct Hs as [Hothers Hcases].
  destruct Hcases as [[-> ->]|[[-> ->]|[Ht [written [rest [Hc [Hl Hres]]]]]]].
  - intros H. injection H as <- <-. left. split; [reflexivity|now left].
  - intros H. injection H as <- <-. right. exists r, p.
    repeat (split; [assumption || reflexivity|]). left. now split.
  - intros H. right. exists r, p.
    split; [reflexivity|]. split; [assumption|]. split; [assumption|]. right.
    destruct Hres as [[-> ->]|[c [rest' [-> ->]]]]; injection H as <- <-.
    + split; [exact Ht|]. split; [exact Hothers|].
      exists written, []. split; [exact Hc|]. split; [exact Hl|]. left. now split.
    + split; [exact Ht|]. split; [exact Hothers|].
      exists written, (c :: rest'). split; [exact Hc|]. split; [exact Hl|].
      right. split; [reflexivity|discriminate].
Qed.

Lemma download_file_keeps (url_ output_dir : string) (referer : option string) :
  keeps (download_file env url_ output_dir referer).
Proof.
  intros w res w' H. apply download_file_run in H. cbv zeta in H.
  destruct H as [[-> _]|[r [p [_ [_ [Hfresh [[_ ->]|[Ht [Ho _]]]]]]]]].
  - apply later_logged.
  - eapply later_trans; apply later_logged.
  - split.
    + eapply fs_preserved_fresh; eassumption.
    + rewrite Ht. simpl. rewrite <- app_assoc. eexists. reflexivity.
Qed.
End FetchRun.

(** X3.  A file [download_file] reports as downloaded holds the chunks of
    the response body, in order and complete; the fetch made one request
    and opened that one file. *)
Theorem download_file_content
        (env : Env) (url_ output_dir : string) (referer : option string)
        (w : world) (p : string) (w' : world) :
  download_file env url_ output_dir referer w = (Ok (Downloaded p), w') ->
  exists r,
    requests_get env w (fetch_request url_ referer) = Some r
    /\ fs_lookup (fs w') p = Some (File (joined (iter_content r)))
    /\ trace w' = trace w ++ [EvFetch (fetch_request url_ referer); EvOpen p].
Proof.
  intros H. apply download_file_run in H. cbv zeta in H.
  destruct H as [[_ [H|[r [_ [_ H]]]]]|[r [q [Hr [_ [_ H]]]]]]; try discriminate.
  destruct H as [[H _]|[Ht [_ [written [rest [Hc [Hl Hres]]]]]]]; [discriminate|].
  destruct Hres as [[H ->]|[H _]]; [|discriminate].
  injection H as <-. rewrite app_nil_r in Hc. subst written.
  exists r. split; [assumption|]. split; [assumption|].
  rewrite Ht. simpl. now rewrite <- app_assoc.
Qed.

Lemma download_file_content_witness :
  fs_lookup
    (fs (snd (download_file Web.env "http://host/clip.mp3" "downloads" None
                Web.with_downloads)))
    "downloads/clip.mp3"
  = Some (File "ID3data").
Proof.
  destruct (download_file_content Web.env "http://host/clip.mp3" "downloads" None
              Web.with_downloads "downloads/clip.mp3"
              (snd (download_file Web.env "http://host/clip.mp3" "downloads" None
                      Web.with_downloads)))
    as [r [Hr [Hl _]]].
  - vm_compute. reflexivity.
  - rewrite Hl. f_equal. f_equal.
    assert (E : Some r = Some (Web.audio_response 200 "http://host/clip.mp3" []))
      by (rewrite <- Hr; reflexivity).
    injection E as ->. reflexivity.
Defined.





(** X6.  A URL that ends in a recognized audio extension is never taken
    for a page: whatever content type the server declares, the outcome of
    its fetch is [Downloaded] or [Failed]. *)
Theorem download_file_audio_url_never_page
        (env : Env) (url_ output_dir : string) (referer : option string)
        (w : world) (res : result fetch_outcome) (w' : world) :
  is_audio_url url_ = true ->
  download_file env url_ output_dir referer w = (res, w') ->
  res = Ok Failed \/ exists p, res = Ok (Downloaded p).
Proof.
  intros Ha H. apply download_file_run in H. cbv zeta in H.
  destruct H as [[_ [->|[r [_ [Hn _]]]]]|[r [p [_ [_ [_ H]]]]]].
  - now left.
  - congruence.
  - destruct H as [[-> _]|[_ [_ [wr [rest [_ [_ [[-> _]|[-> _]]]]]]]]].
    + now left.
    + right. now exists p.
    + now left.
Qed.

Lemma download_file_audio_url_never_page_witness :
  fst (download_file Cases.env_all_html "http://host/x.mp3" "downloads" None
         Web.with_downloads)
  = Ok (Downloaded "downloads/x.mp3").
Proof.
  destruct (download_file_audio_url_never_page Cases.env_all_html "http://host/x.mp3"
              "downloads" None Web.with_downloads
              (fst (download_file Cases.env_all_html "http://host/x.mp3" "downloads" None
                      Web.with_downloads))
              (snd (download_file Cases.env_all_html "http://host/x.mp3" "downloads" None
                      Web.with_downloads))
              eq_refl (surjective_pairing _)) as [H|[p H]].
  - vm_compute in H. discriminate.
  - vm_compute. reflexivity.
Defined.

(** ** Where the file goes *)

Lemma substring_app_l (a b : string) (n : nat) :
  String.length a <= n ->
  substring 0 n (a ++ b) = (a ++ substring 0 (n - String.length a) b)%string.
Proof.
  revert n. induction a as [|c a IH]; intros n Hn; simpl.
  - now rewrite Nat.sub_0_r.
  - destruct n as [|n]; [simpl in Hn; lia|]. simpl. f_equal. apply IH.
    simpl in Hn. lia.
Qed.

Lemma substring_app_r (a b : string) (n m : nat) :
  String.length a <= n ->
  substring n m (a ++ b) = substring (n - String.length a) m b.
Proof.
  revert n. induction a as [|c a IH]; intros n Hn; simpl.
  - now rewrite Nat.sub_0_r.
  - destruct n as [|n]; [simpl in Hn; lia|]. simpl. apply IH. simpl in Hn. lia.
Qed.

(** [rfind] finds the last occurrence: it is not before any occurrence. *)
Lemma rfind_from_ge (c : ascii) (a b : string) (i : Z) :
  (0 <= i)%Z ->
  (i + Z.of_nat (String.length a) <= Path.rfind_from i c (a ++ String c b))%Z.
Proof.
  revert i. induction a as [|d a IH]; intros i Hi.
  - cbn [append Path.rfind_from String.length].
    destruct (rfind_from_range (i + 1) c b) as [E|R].
    + rewrite E. simpl (0 <=? -1)%Z. cbv iota. rewrite Ascii.eqb_refl. simpl. lia.
    + destruct (0 <=? Path.rfind_from (i + 1) c b)%Z eqn:Ez.
      * simpl. lia.
      * apply Z.leb_gt in Ez. lia.
  - cbn [append Path.rfind_from].
    specialize (IH (i + 1)%Z ltac:(lia)).
    destruct (0 <=? Path.rfind_from (i + 1) c (a ++ String c b))%Z eqn:Ez.
    + change (String.length (String d a)) with (S (String.length a)).
      rewrite Nat2Z.inj_succ. lia.
    + apply Z.leb_gt in Ez. lia.
Qed.

Lemma digits_no_slash (d : Decimal.uint) :
  Py.has_char "/" (NilEmpty.string_of_uint d) = false.
Proof. induction d; simpl; assumption || reflexivity. Qed.

(** The directory with its separator: what [os.path.join] puts before a
    name that does not start with a slash. *)
Lemma join_prefix (output_dir name : string) :
  Py.has_char "/" name = false ->
  exists pre,
    (forall n, Py.has_char "/" n = false -> Path.join output_dir n = (pre ++ n)%string)
    /\ (pre = "" \/ exists pre', pre = (pre' ++ "/")%string).
Proof.
  intros _.
  assert (Hstart : forall n, Py.has_char "/" n = false -> Py.startswith n "/" = false).
  { intros n H. unfold Py.startswith.
    destruct (String.prefix "/" n) eqn:E; [|reflexivity].
    apply prefix_spec in E. destruct E as [rest ->]. discriminate. }
  unfold Path.join.
  destruct (output_dir =? "") eqn:Ee.
  - apply String.eqb_eq in Ee. subst. exists "". split; [|now left].
    intros n Hn. now rewrite (Hstart n Hn).
  - destruct (Py.endswith output_dir "/") eqn:Es.
    + exists output_dir. split.
      * intros n Hn. now rewrite (Hstart n Hn).
      * right. now apply endswith_spec.
    + exists (output_dir ++ "/")%string. split.
      * intros n Hn. rewrite (Hstart n Hn). simpl. now rewrite append_assoc.
      * right. now exists output_dir.
Qed.

(** [splitext] of a path in a directory cuts inside the name. *)
Lemma splitext_in_dir (pre name base ext : string) :
  pre = "" \/ (exists pre', pre = (pre' ++ "/")%string) ->
  Py.has_char "/" name = false ->
  Path.splitext (pre ++ name) = (base, ext) ->
  exists b, base = (pre ++ b)%string /\ name = (b ++ ext)%string
            /\ Py.has_char "/" b = false /\ Py.has_char "/" ext = false.
Proof.
  intros Hpre Hname Hs.
  pose proof (splitext_concat _ _ _ Hs) as Hcat.
  assert (Hfinish : forall b, base = (pre ++ b)%string -> Py.has_char "/" b = false ->
                              exists b0, base = (pre ++ b0)%string
                                         /\ name = (b0 ++ ext)%string
                                         /\ Py.has_char "/" b0 = false
                                         /\ Py.has_char "/" ext = false).
  { intros b Hb Hbs. exists b. split; [exact Hb|].
    assert (Hn : name = (b ++ ext)%string).
    { rewrite Hb, append_assoc in Hcat. now apply append_cancel_l in Hcat. }
    split; [exact Hn|]. split; [exact Hbs|].
    rewrite Hn, has_char_app in Hname. now apply orb_false_iff in Hname. }
  unfold Path.splitext in Hs.
  destruct ((Path.rfind "/" (pre ++ name) <? Path.rfind "." (pre ++ name))%Z
            && Path.non_dot_between (Path.rfind "/" (pre ++ name) + 1)
                                    (Path.rfind "." (pre ++ name)) (pre ++ name)) eqn:E.
  - injection Hs as Hb He. apply andb_true_iff in E. destruct E as [E _].
    apply Z.ltb_lt in E.
    assert (Hlen : String.length pre <= Z.to_nat (Path.rfind "." (pre ++ name))).
    { destruct Hpre as [-> | [pre' ->]]; [simpl; lia|].
      rewrite append_length.
      replace ((pre' ++ "/") ++ name)%string with (pre' ++ String "/" name)%string
        in E |- * by (now rewrite append_assoc).
      pose proof (rfind_from_ge "/" pre' name 0 ltac:(lia)) as Hge.
      unfold Path.rfind in E |- *. simpl String.length. lia. }
    apply (Hfinish (substring 0 (Z.to_nat (Path.rfind "." (pre ++ name))
                                 - String.length pre) name)).
    + rewrite <- Hb. unfold Path.slice_to. now apply substring_app_l.
    + now apply has_char_substring.
  - injection Hs as Hb He. apply (Hfinish name); [now symmetry|assumption].
Qed.

(** Every path the search for a free path can give is in the directory. *)
Lemma free_path_in_dir (files : filesystem) (output_dir name p : string) :
  Py.has_char "/" name = false ->
  Py.has_char "." name = true ->
  free_path files (Path.join output_dir name) = Some p ->
  exists name', p = Path.join output_dir name'
                /\ Py.has_char "/" name' = false
                /\ Py.has_char "." name' = true.
Proof.
  intros Hslash Hdot Hp.
  destruct (join_prefix output_dir name Hslash) as [pre [Hjoin Hpre]].
  unfold free_path in Hp. rewrite (Hjoin name Hslash) in Hp.
  destruct (Path.splitext (pre ++ name)) as [base ext] eqn:Hs.
  apply free_path_loop_some in Hp.
  destruct Hp as [_ [[_ ->]|[_ [k [_ [-> _]]]]]].
  - exists name. rewrite (Hjoin name Hslash). auto.
  - destruct (splitext_in_dir _ _ _ _ Hpre Hslash Hs) as [b [-> [Hn [Hb He]]]].
    exists (b ++ "_" ++ Py.str_of_nat k ++ ext)%string.
    assert (Hs' : Py.has_char "/" (b ++ "_" ++ Py.str_of_nat k ++ ext) = false).
    { rewrite !has_char_app, Hb, He. unfold Py.str_of_nat.
      now rewrite digits_no_slash. }
    split; [|split; [exact Hs'|]].
    + rewrite (Hjoin _ Hs'). unfold numbered. now rewrite append_assoc.
    + rewrite Hn, has_char_app in Hdot. rewrite !has_char_app.
      apply orb_true_iff in Hdot. destruct Hdot as [H|H]; rewrite H; simpl;
        [reflexivity|]. now rewrite !orb_true_r.
Qed.

Lemma download_file_saved
      (env : Env) (url_ output_dir : string) (referer : option string)
      (w : world) (p : string) (w' : world) :
  download_file env url_ output_dir referer w = (Ok (Downloaded p), w') ->
  saved_in output_dir w p w'.
Proof.
  intros H. apply download_file_run in H. cbv zeta in H.
  destruct H as [[_ [H|[r [_ [_ H]]]]]|[r [q [_ [Hq [Hfresh H]]]]]]; try discriminate.
  destruct H as [[H _]|[_ [_ [written [rest [_ [Hl [[H _]|[H _]]]]]]]]];
    try discriminate.
  injection H as <-. split; [exact Hfresh|]. split.
  - now rewrite fs_exists_lookup, Hl.
  - destruct (derive_filename_chars env r (content_type_of r)) as [Hdot Hforb].
    apply (free_path_in_dir (fs w) output_dir
             (derive_filename env r (content_type_of r)) p);
      [|exact Hdot|exact Hq].
    apply Hforb. simpl. auto.
Qed.



(** ** Runs lead to later worlds *)

Section Keeps.
Context {A B : Type}.

Lemma keeps_ret (a : A) : keeps (ret a).
Proof. intros w r w' H. injection H as <- <-. apply later_refl. Qed.

Lemma keeps_raise (e : exn) : keeps (@raise A e).
Proof. intros w r w' H. injection H as <- <-. apply later_refl. Qed.

Lemma keeps_diverge : keeps (@diverge A).
Proof. intros w r w' H. injection H as <- <-. apply later_refl. Qed.

Lemma keeps_bind (c : M A) (k : A -> M B) :
  keeps c -> (forall a, keeps (k a)) -> keeps (bind c k).
Proof.
  intros Hc Hk w r w' H. unfold bind in H.
  destruct (c w) as [[a|e|] w1] eqn:E; specialize (Hc _ _ _ E).
  - eapply later_trans; [exact Hc|]. eapply Hk. exact H.
  - now injection H as <- <-.
  - now injection H as <- <-.
Qed.
End Keeps.

#[local] Hint Resolve keeps_ret keeps_raise keeps_diverge : runs.

Section ResolutionKeeps.
Variable env : Env.

Lemma get_wayback_url_keeps (url_ : string) : keeps (get_wayback_url env url_).
Proof.
  intros w r w' H. rewrite get_wayback_url_eq in H. injection H as <- <-.
  apply later_logged.
Qed.

Lemma ensure_dir_keeps (output_dir : string) : keeps (ensure_dir env output_dir).
Proof.
  intros w r w' H. rewrite ensure_dir_eq in H.
  destruct (fs_exists (fs w) output_dir) eqn:Hd.
  - injection H as <- <-. apply later_refl.
  - destruct (os_fails env (logged w (EvMakedirs output_dir)) (OpMakedirs output_dir)).
    + injection H as <- <-. apply later_logged.
    + injection H as <- <-. split; [|now eexists].
      apply (fs_preserved_fresh _ _ output_dir Hd).
      intros q Hq. simpl. now apply fs_lookup_set_ne.
Qed.

Lemma try_candidates_keeps (audio_links : list string) (output_dir final_url : string) :
  keeps (try_candidates env audio_links output_dir final_url).
Proof.
  induction audio_links as [|link rest IH]; simpl; [auto with runs|].
  apply keeps_bind; [apply download_file_keeps|].
  intros [path|html u|]; [auto with runs|exact IH|exact IH].
Qed.

Lemma scan_page_keeps (o : fetch_outcome) (output_dir : string) :
  keeps (scan_page env o output_dir).
Proof.
  destruct o as [path|html u|]; simpl; auto with runs.
  destruct (Py.nonempty html); [apply try_candidates_keeps|auto with runs].
Qed.

Lemma archive_fallback_keeps
      (recurse : string -> string -> bool -> M (option string))
      (url_ output_dir : string) (try_wayback : bool) :
  (forall s, keeps (recurse s output_dir false)) ->
  keeps (archive_fallback env recurse url_ output_dir try_wayback).
Proof.
  intros Hrec. unfold archive_fallback. destruct try_wayback; [|auto with runs].
  apply keeps_bind; [apply get_wayback_url_keeps|]. intros v.
  destruct (json_truthy v); [|auto with runs].
  assert (Hother : keeps (ensure_dir env output_dir ;; ret (@None string))).
  { apply keeps_bind; [apply ensure_dir_keeps|]. auto with runs. }
  destruct v; try exact Hother. apply Hrec.
Qed.

Lemma resolve_keeps (recurse : string -> string -> bool -> M (option string))
      (url_ output_dir : string) (try_wayback : bool) :
  (forall s, keeps (recurse s output_dir false)) ->
  keeps (resolve env recurse url_ output_dir try_wayback).
Proof.
  intros Hrec. unfold resolve. apply keeps_bind; [apply download_file_keeps|].
  intros o.
  assert (Htail : keeps (found <- scan_page env o output_dir ;;
                         match found with
                         | Some path => ret (Some path)
                         | None => archive_fallback env recurse url_ output_dir
                                                    try_wayback
                         end)).
  { apply keeps_bind; [apply scan_page_keeps|].
    intros [path|]; [auto with runs|now apply archive_fallback_keeps]. }
  destruct o; [auto with runs|exact Htail|exact Htail].
Qed.

Lemma process_url_keeps (fuel : nat) :
  forall url_ output_dir try_wayback,
    keeps (process_url env fuel url_ output_dir try_wayback).
Proof.
  induction fuel as [|fuel IH]; intros url_ output_dir try_wayback; simpl.
  - apply keeps_diverge.
  - apply keeps_bind; [apply ensure_dir_keeps|]. intros _.
    apply resolve_keeps. intros s. apply IH.
Qed.
End ResolutionKeeps.

(** X8.  A resolution never touches what is already on disk: after any
    run of [process_url], however it ends, every entry that existed before
    is still there with the content it had.  New files get new names. *)
Theorem process_url_preserves_files
        (env : Env) (fuel : nat) (url_ output_dir : string) (try_wayback : bool)
        (w : world) (res : result (option string)) (w' : world) :
  process_url env fuel url_ output_dir try_wayback w = (res, w') ->
  (forall path, fs_exists (fs w) path = true ->
                fs_lookup (fs w') path = fs_lookup (fs w) path)
  /\ (forall path data, fs_lookup (fs w) path = Some (File data) ->
                        fs_lookup (fs w') path = Some (File data))
  /\ exists evs, trace w' = trace w ++ evs.
Proof.
  intros H. apply process_url_keeps in H. destruct H as [Hp Ht].
  split; [exact Hp|]. split; [|exact Ht].
  intros path data Hl. rewrite <- Hl. apply Hp.
  now rewrite fs_exists_lookup, Hl.
Qed.

Lemma process_url_preserves_files_witness :
  fst (process_url Web.env 2 "http://host/clip.mp3" "downloads" true Cases.with_old_file)
  = Ok (Some "downloads/clip_1.mp3")
  /\ fs_lookup
       (fs (snd (process_url Web.env 2 "http://host/clip.mp3" "downloads" true
                   Cases.with_old_file)))
       "downloads/clip.mp3"
     = Some (File "old").
Proof.
  split; [vm_compute; reflexivity|].
  apply (proj1 (proj2 (process_url_preserves_files Web.env 2 "http://host/clip.mp3"
                         "downloads" true Cases.with_old_file
                         (fst (process_url Web.env 2 "http://host/clip.mp3" "downloads"
                                 true Cases.with_old_file))
                         (snd (process_url Web.env 2 "http://host/clip.mp3" "downloads"
                                 true Cases.with_old_file))
                         (surjective_pairing _)))).
  reflexivity.
Defined.

(** ** The path a resolution returns *)


Section ResolutionSaves.
Variable env : Env.



End ResolutionSaves.



(** ** The order of the requests *)

Lemma fetches_app (a b : list event) : fetches (a ++ b) = fetches a ++ fetches b.
Proof. apply flat_map_app. Qed.

Section RequestOrder.
Variable env : Env.

(** The one request of a fetch is the first thing it does. *)
Lemma download_file_trace (url_ output_dir : string) (referer : option string)
      (w : world) (res : result fetch_outcome) (w' : world) :
  download_file env url_ output_dir referer w = (res, w') ->
  exists evs, trace w' = trace w ++ EvFetch (fetch_request url_ referer) :: evs
              /\ fetches evs = [].
Proof.
  intros H. apply download_file_run in H. cbv zeta in H.
  destruct H as [[-> _]|[r [p [_ [_ [_ [[_ ->]|[Ht _]]]]]]]].
  - now exists [].
  - exists [EvOpen p]. simpl. now rewrite <- app_assoc.
  - exists [EvOpen p]. rewrite Ht. simpl. now rewrite <- app_assoc.
Qed.

Lemma archive_fallback_trace
      (recurse : string -> string -> bool -> M (option string))
      (url_ output_dir : string) (w : world) (res : result (option string)) (w' : world) :
  (forall s, keeps (recurse s output_dir false)) ->
  archive_fallback env recurse url_ output_dir true w = (res, w') ->
  exists evs, trace w' = trace w ++ EvLookup (lookup_request url_) :: evs.
Proof.
  intros Hrec H. unfold archive_fallback, bind at 1 in H.
  rewrite get_wayback_url_eq in H.
  assert (Hk : forall k : M (option string),
             keeps k -> k (logged w (EvLookup (lookup_request url_))) = (res, w') ->
             exists evs, trace w' = trace w ++ EvLookup (lookup_request url_) :: evs).
  { intros k Hkeeps Hrun. apply Hkeeps in Hrun. destruct Hrun as [_ [evs Ht]].
    exists evs. rewrite Ht. simpl. now rewrite <- app_assoc. }
  match type of H with
  | context [json_truthy ?v] => destruct (json_truthy v);
                                [destruct v as [|b|n|s|l|d]|]
  end.
  all: try (apply (Hk _ (keeps_ret None) H)).
  all: try (refine (Hk _ _ H); apply keeps_bind;
            [apply ensure_dir_keeps|intros _; apply keeps_ret]).
  apply (Hk _ (Hrec s) H).
Qed.
End RequestOrder.

(** X10.  With the fallback allowed, [process_url] gives up only after it
    has asked the archive: a run that returns [None] has fetched the URL
    without a referer and, later, looked its snapshot up. *)
Theorem process_url_none_after_lookup
        (env : Env) (fuel : nat) (url_ output_dir : string) (w w' : world) :
  process_url env fuel url_ output_dir true w = (Ok None, w') ->
  exists pre evs1 evs2,
    trace w' = trace w ++ pre ++ EvFetch (fetch_request url_ None) :: evs1
                       ++ EvLookup (lookup_request url_) :: evs2
    /\ (pre = [] \/ pre = [EvMakedirs output_dir]).
Proof.
  destruct fuel as [|fuel]; [discriminate|].
  cbn [process_url]. unfold bind at 1. rewrite ensure_dir_eq.
  assert (Hres : forall w0,
             resolve env (process_url env fuel) url_ output_dir true w0 = (Ok None, w') ->
             exists evs1 evs2,
               trace w' = trace w0 ++ EvFetch (fetch_request url_ None) :: evs1
                                   ++ EvLookup (lookup_request url_) :: evs2).
  { intros w0 H. unfold resolve, bind at 1 in H.
    destruct (download_file env url_ output_dir None w0) as [[o|e|] w1] eqn:E;
      try discriminate.
    apply download_file_trace in E. destruct E as [e1 [T1 _]].
    assert (Htail :
              (found <- scan_page env o output_dir ;;
               match found with
               | Some path => ret (Some path)
               | None => archive_fallback env (process_url env fuel) url_ output_dir true
               end) w1 = (Ok None, w') ->
              exists evs1 evs2,
                trace w' = trace w0 ++ EvFetch (fetch_request url_ None) :: evs1
                                    ++ EvLookup (lookup_request url_) :: evs2).
    { intros Ht. unfold bind at 1 in Ht.
      destruct (scan_page env o output_dir w1) as [[found|e|] w2] eqn:E2;
        try discriminate.
      apply scan_page_keeps in E2. destruct E2 as [_ [e2 T2]].
      destruct found as [q|]; [discriminate|].
      apply archive_fallback_trace in Ht; [|intros s; apply process_url_keeps].
      destruct Ht as [e3 T3]. exists (e1 ++ e2), e3.
      rewrite T3, T2, T1. rewrite <- !app_assoc. reflexivity. }
    destruct o; [discriminate|now apply Htail|now apply Htail]. }
  destruct (fs_exists (fs w) output_dir).
  - intros H. apply Hres in H. destruct H as [evs1 [evs2 Ht]].
    exists [], evs1, evs2. split; [exact Ht|now left].
  - destruct (os_fails env (logged w (EvMakedirs output_dir)) (OpMakedirs output_dir));
      [discriminate|].
    intros H. apply Hres in H. destruct H as [evs1 [evs2 Ht]].
    exists [EvMakedirs output_dir], evs1, evs2. split; [|now right].
    rewrite Ht. simpl. now rewrite <- app_assoc.
Qed.

Lemma process_url_none_after_lookup_witness :
  exists pre evs1 evs2,
    trace (snd (process_url Web.env 2 "http://host/gone.html" "downloads" true Web.empty))
    = trace Web.empty ++ pre ++ EvFetch (fetch_request "http://host/gone.html" None)
                      :: evs1 ++ EvLookup (lookup_request "http://host/gone.html") :: evs2
    /\ (pre = [] \/ pre = [EvMakedirs "downloads"]).
Proof.
  apply (process_url_none_after_lookup Web.env 2 "http://host/gone.html" "downloads"
           Web.empty).
  vm_compute. reflexivity.
Defined.

(** X11.  The candidates are requested one after the other, in the order
    of the list, each with the page's final URL as referer, and no other
    URL is requested: the requests made are those of a prefix of the list.
    The loop stops at the first candidate that downloads; it returns
    [None] only when the whole list was tried. *)
Theorem try_candidates_in_order
        (env : Env) (audio_links : list string) (output_dir final_url : string)
        (w : world) (res : result (option string)) (w' : world) :
  try_candidates env audio_links output_dir final_url w = (res, w') ->
  exists tried rest,
    audio_links = tried ++ rest
    /\ fetches (trace w')
       = fetches (trace w) ++ map (fun link => fetch_request link (Some final_url)) tried
    /\ ((res = Ok None /\ rest = [])
        \/ exists tried' link p,
            tried = tried' ++ [link]
            /\ res = Ok (Some p)
            /\ fs_exists (fs w') p = true).
Proof.
  revert w. induction audio_links as [|link links IH]; intros w H.
  - injection H as <- <-. exists [], []. split; [reflexivity|].
    split; [simpl; now rewrite app_nil_r|]. left. now split.
  - cbn [try_candidates] in H. unfold bind at 1 in H.
    destruct (download_file_returns env link output_dir (Some final_url) w)
      as [o [w1 [E _]]].
    rewrite E in H.
    pose proof (download_file_trace _ _ _ _ _ _ _ E) as [evs [T1 F1]].
    assert (Hf : fetches (trace w1)
                 = fetches (trace w) ++ [fetch_request link (Some final_url)]).
    { rewrite T1, fetches_app. simpl. now rewrite F1. }
    assert (Hrest : try_candidates env links output_dir final_url w1 = (res, w') ->
                    exists tried rest,
                      link :: links = tried ++ rest
                      /\ fetches (trace w')
                         = fetches (trace w)
                           ++ map (fun l => fetch_request l (Some final_url)) tried
                      /\ ((res = Ok None /\ rest = [])
                          \/ exists tried' l p,
                              tried = tried' ++ [l] /\ res = Ok (Some p)
                              /\ fs_exists (fs w') p = true)).
    { intros Hr. apply IH in Hr.
      destruct Hr as [tried [rest [Hl [Hfs Hend]]]].
      exists (link :: tried), rest. split; [now rewrite Hl|].
      split; [rewrite Hfs, Hf; simpl; now rewrite <- app_assoc|].
      destruct Hend as [Hnone|[tried' [l [p [-> Hp]]]]]; [now left|].
      right. now exists (link :: tried'), l, p. }
    destruct o as [p|html u|]; [|now apply Hrest|now apply Hrest].
    injection H as <- <-.
    exists [link], links. split; [reflexivity|]. split; [exact Hf|].
    right. exists [], link, p. split; [reflexivity|]. split; [reflexivity|].
    apply download_file_saved in E. now destruct E as [_ [E _]].
Qed.

Lemma try_candidates_in_order_witness :
  fetches (trace (snd (try_candidates Web.env_readonly
                         ["http://host/c1.mp3"; "http://host/c2.mp3"]
                         "downloads" "http://host/two.html" Web.with_downloads)))
  = [fetch_request "http://host/c1.mp3" (Some "http://host/two.html");
     fetch_request "http://host/c2.mp3" (Some "http://host/two.html")].
Proof.
  destruct (try_candidates_in_order Web.env_readonly
              ["http://host/c1.mp3"; "http://host/c2.mp3"]
              "downloads" "http://host/two.html" Web.with_downloads
              (fst (try_candidates Web.env_readonly
                      ["http://host/c1.mp3"; "http://host/c2.mp3"]
                      "downloads" "http://host/two.html" Web.with_downloads))
              (snd (try_candidates Web.env_readonly
                      ["http://host/c1.mp3"; "http://host/c2.mp3"]
                      "downloads" "http://host/two.html" Web.with_downloads))
              (surjective_pairing _))
    as [tried [rest [Hl [Hf _]]]].
  vm_compute. reflexivity.
Defined.

(** ** What the extractor collects *)

Lemma prefix_split (p s : string) :
  String.prefix p s = true ->
  s = (p ++ substring (String.length p) (String.length s - String.length p) s)%string.
Proof.
  intros H. apply prefix_spec in H. destruct H as [rest ->].
  rewrite substring_app_r by lia. rewrite append_length.
  replace (String.length p + String.length rest - String.length p)
    with (String.length rest) by lia.
  now rewrite Nat.sub_diag, substring_whole.
Qed.

Lemma take_while_split (p : ascii -> bool) (s : string) :
  exists rest, s = (Py.take_while p s ++ rest)%string.
Proof.
  induction s as [|c s [rest IH]]; [now exists ""|]. simpl.
  destruct (p c); [|now eexists]. exists rest. simpl. now rewrite <- IH.
Qed.

Lemma take_while_chars (p : ascii -> bool) (s : string) (c : ascii) :
  Py.has_char c (Py.take_while p s) = true -> p c = true.
Proof.
  induction s as [|d s IH]; simpl; [discriminate|].
  destruct (p d) eqn:E; [|discriminate]. simpl.
  destruct (c =? d)%char eqn:Ec; [|exact IH].
  apply Ascii.eqb_eq in Ec. now subst.
Qed.

Lemma longest_mp3_prefix_spec (run m : string) :
  longest_mp3_prefix run = Some m ->
  exists body rest, body <> "" /\ m = (body ++ ".mp3")%string
                    /\ run = (m ++ rest)%string.
Proof.
  revert m. induction run as [|c run IH]; intros m H; [discriminate|].
  cbn [longest_mp3_prefix] in H.
  destruct (longest_mp3_prefix run) as [m'|].
  - injection H as <-. destruct (IH m' eq_refl) as [body [rest [Hb [-> Hr]]]].
    exists (String c body), rest. split; [discriminate|]. split; [reflexivity|].
    simpl. now rewrite <- Hr.
  - destruct (String.prefix ".mp3" run) eqn:E; [|discriminate].
    injection H as <-. apply prefix_spec in E. destruct E as [rest ->].
    exists (String c ""), rest. split; [discriminate|]. now split.
Qed.

Lemma match_mp3_url_spec (s m : string) :
  match_mp3_url s = Some m ->
  exists scheme body after,
    (scheme = "http://" \/ scheme = "https://")
    /\ body <> ""
    /\ m = (scheme ++ body ++ ".mp3")%string
    /\ s = (m ++ after)%string
    /\ forall c, Py.has_char c (body ++ ".mp3") = true -> url_char c = true.
Proof.
  unfold match_mp3_url, strip_scheme. intros H.
  assert (Hgen : forall scheme,
             String.prefix scheme s = true ->
             option_map (append scheme)
               (longest_mp3_prefix
                  (Py.take_while url_char
                     (substring (String.length scheme)
                                (String.length s - String.length scheme) s))) = Some m ->
             exists body after,
               body <> "" /\ m = (scheme ++ body ++ ".mp3")%string
               /\ s = (m ++ after)%string
               /\ forall c, Py.has_char c (body ++ ".mp3") = true -> url_char c = true).
  { intros scheme Hp Hm. apply prefix_split in Hp.
    destruct (longest_mp3_prefix _) as [m'|] eqn:El; [|discriminate].
    injection Hm as <-.
    destruct (longest_mp3_prefix_spec _ _ El) as [body [rest [Hb [-> Hrun]]]].
    destruct (take_while_split url_char
                (substring (String.length scheme)
                           (String.length s - String.length scheme) s)) as [rest' Hs].
    exists body, (rest ++ rest')%string. split; [exact Hb|]. split; [reflexivity|].
    split.
    - rewrite Hp at 1. rewrite Hs, Hrun. now rewrite !append_assoc.
    - intros c Hc.
      apply (take_while_chars url_char
               (substring (String.length scheme)
                          (String.length s - String.length scheme) s) c).
      rewrite Hrun, has_char_app, Hc. reflexivity. }
  destruct (String.prefix "https://" s) eqn:E1.
  - destruct (Hgen "https://" E1 H) as [body [after Hx]].
    exists "https://", body, after. split; [now right|exact Hx].
  - destruct (String.prefix "http://" s) eqn:E2; [|discriminate].
    destruct (Hgen "http://" E2 H) as [body [after Hx]].
    exists "http://", body, after. split; [now left|exact Hx].
Qed.

Lemma findall_from_In (s : string) :
  forall skip m, In m (findall_from skip s) ->
                 exists before s', s = (before ++ s')%string /\ match_mp3_url s' = Some m.
Proof.
  induction s as [|c s IH]; intros skip m H; [contradiction|].
  assert (Hshift : forall k, In m (findall_from k s) ->
                             exists before s', String c s = (before ++ s')%string
                                               /\ match_mp3_url s' = Some m).
  { intros k Hk. destruct (IH k m Hk) as [before [s' [-> Hm]]].
    now exists (String c before), s'. }
  cbn [findall_from] in H. destruct skip as [|k]; [|now apply (Hshift k)].
  destruct (match_mp3_url (String c s)) as [m0|] eqn:E; [|now apply (Hshift 0)].
  destruct H as [<-|H]; [|now apply (Hshift _ H)].
  now exists "", (String c s).
Qed.

Lemma lower_app (a b : string) : Py.lower (a ++ b) = (Py.lower a ++ Py.lower b)%string.
Proof. induction a; simpl; congruence. Qed.

(** X12.  Every URL the text scan finds stands in the text as it is
    returned; it begins with [http://] or [https://], ends in a lower-case
    [.mp3] with at least one character between, and holds no white space,
    double quote or backslash after the scheme; so it has an audio
    extension. *)
Theorem findall_mp3_urls_wellformed (html_content m : string) :
  In m (findall_mp3_urls html_content) ->
  exists before after scheme body,
    html_content = (before ++ m ++ after)%string
    /\ m = (scheme ++ body ++ ".mp3")%string
    /\ (scheme = "http://" \/ scheme = "https://")
    /\ body <> ""
    /\ (forall c, Py.has_char c body = true ->
                  Py.is_space c = false /\ c <> Py.dquote_char /\ c <> "\"%char)
    /\ is_audio_url m = true.
Proof.
  intros H. apply findall_from_In in H. destruct H as [before [s' [-> Hm]]].
  apply match_mp3_url_spec in Hm.
  destruct Hm as [scheme [body [after [Hs [Hb [-> [-> Hc]]]]]]].
  exists before, after, scheme, body.
  split; [reflexivity|]. split; [reflexivity|]. split; [exact Hs|].
  split; [exact Hb|]. split.
  - intros c Hcb. specialize (Hc c). rewrite has_char_app, Hcb in Hc.
    specialize (Hc eq_refl). unfold url_char in Hc. apply negb_true_iff in Hc.
    apply orb_false_iff in Hc. destruct Hc as [Hc H3].
    apply orb_false_iff in Hc. destruct Hc as [H1 H2].
    split; [exact H1|]. split; intros ->; now rewrite Ascii.eqb_refl in *.
  - apply is_audio_url_spec. exists ".mp3". split; [simpl; auto|].
    exists (Py.lower (scheme ++ body)).
    rewrite <- append_assoc, lower_app. reflexivity.
Qed.

Lemma findall_mp3_urls_wellformed_witness :
  exists before after scheme body,
    ("x http://h/t.mp3 y")%string = (before ++ "http://h/t.mp3" ++ after)%string
    /\ "http://h/t.mp3" = (scheme ++ body ++ ".mp3")%string
    /\ body <> "".
Proof.
  destruct (findall_mp3_urls_wellformed "x http://h/t.mp3 y" "http://h/t.mp3")
    as [before [after [scheme [body [H1 [H2 [_ [H3 _]]]]]]]].
  - vm_compute. left. reflexivity.
  - exists before, after, scheme, body. now repeat split.
Defined.

(** Every raw candidate is a non-empty string. *)
Lemma if_truthy_nonempty (o : option string) (c : string) :
  In c (if_truthy o) -> Py.nonempty c = true.
Proof.
  destruct o as [s|]; simpl; [|contradiction].
  destruct (Py.nonempty s) eqn:E; [|contradiction].
  intros [<-|[]]. exact E.
Qed.

Lemma is_audio_url_nonempty (c : string) : is_audio_url c = true -> Py.nonempty c = true.
Proof. destruct c; [discriminate|reflexivity]. Qed.

Lemma audio_link_candidates (doc : soup) (attr name : string) (c : string) :
  In c (flat_map (fun t => match tag_get t attr with
                           | Some v => if is_audio_url v then [v] else []
                           | None => []
                           end)
                 (find_all_with doc name attr)) ->
  is_audio_url c = true.
Proof.
  intros H. apply in_flat_map in H. destruct H as [t [_ H]].
  destruct (tag_get t attr) as [v|]; [|contradiction].
  destruct (is_audio_url v) eqn:E; [|contradiction].
  destruct H as [<-|[]]. exact E.
Qed.

Lemma candidates_nonempty (lib : HtmlLib) (html_content c : string) :
  In c (candidates lib html_content) -> Py.nonempty c = true.
Proof.
  unfold candidates. rewrite !in_app_iff.
  intros [H|[H|[H|[H|H]]]].
  - unfold audio_tag_candidates in H. apply in_flat_map in H.
    destruct H as [audio [_ H]]. apply in_app_iff in H.
    destruct H as [H|H]; [now apply if_truthy_nonempty in H|].
    apply in_flat_map in H. destruct H as [source [_ H]].
    now apply if_truthy_nonempty in H.
  - apply is_audio_url_nonempty. now apply (audio_link_candidates (BeautifulSoup lib html_content) "href" "a").
  - apply is_audio_url_nonempty. now apply (audio_link_candidates (BeautifulSoup lib html_content) "src" "source").
  - unfold meta_candidates in H. apply in_flat_map in H.
    destruct H as [meta [_ H]].
    destruct (opt_in _ _ || opt_in _ _); [|contradiction].
    now apply if_truthy_nonempty in H.
  - apply findall_from_In in H. destruct H as [before [s' [_ Hm]]].
    apply match_mp3_url_spec in Hm.
    destruct Hm as [scheme [body [after [Hs [_ [-> _]]]]]].
    destruct Hs as [-> | ->]; reflexivity.
Qed.

Lemma resolved_all (lib : HtmlLib) (html_content base_url : string) :
  resolved lib html_content base_url
  = map (urljoin lib base_url) (candidates lib html_content).
Proof.
  unfold resolved. f_equal.
  apply forallb_filter_id. apply forallb_forall. intros c Hc.
  eapply candidates_nonempty; eassumption.
Qed.

(** X13.  No strategy ever yields an empty candidate, so the guard
    [if not c: continue] skips nothing and every raw candidate is
    resolved; what anchors, generic source tags and the text scan yield
    has a recognized audio extension. *)
Theorem candidates_never_empty (lib : HtmlLib) (html_content base_url : string) :
  (forall c, In c (candidates lib html_content) -> c <> "")
  /\ resolved lib html_content base_url
     = map (urljoin lib base_url) (candidates lib html_content)
  /\ (forall c, In c (anchor_candidates (BeautifulSoup lib html_content)
                      ++ source_candidates (BeautifulSoup lib html_content)
                      ++ findall_mp3_urls html_content) ->
                is_audio_url c = true).
Proof.
  split; [|split].
  - intros c Hc E. apply candidates_nonempty in Hc. subst c. discriminate.
  - apply resolved_all.
  - intros c. rewrite !in_app_iff. intros [H|[H|H]].
    + now apply (audio_link_candidates (BeautifulSoup lib html_content) "href" "a").
    + now apply (audio_link_candidates (BeautifulSoup lib html_content) "src" "source").
    + apply findall_from_In in H. destruct H as [before [s' [_ Hm]]].
      apply match_mp3_url_spec in Hm.
      destruct Hm as [scheme [body [after [_ [_ [-> _]]]]]].
      apply is_audio_url_spec. exists ".mp3". split; [simpl; auto|].
      exists (Py.lower (scheme ++ body)).
      rewrite <- append_assoc, lower_app. reflexivity.
Qed.

Lemma candidates_never_empty_witness :
  is_audio_url "b.mp3" = true /\ "b.mp3" <> "".
Proof.
  destruct (candidates_never_empty Ex.lib Ex.page_ab "http://host/p.html")
    as [Hne [_ Haudio]].
  split.
  - apply Haudio. vm_compute. left. reflexivity.
  - apply Hne. vm_compute. right. left. reflexivity.
Defined.

(** X14.  [find_audio_on_page] returns exactly the resolutions of the raw
    candidates: each URL returned is [urljoin] of the base and a candidate
    some strategy found, each candidate's resolution is returned, and there
    are no more URLs than candidates; a page without candidates gives the
    empty list. *)
Theorem find_audio_on_page_exact (lib : HtmlLib) (html_content base_url : string) :
  (forall x, In x (find_audio_on_page lib html_content base_url)
             <-> exists c, In c (candidates lib html_content)
                           /\ x = urljoin lib base_url c)
  /\ List.length (find_audio_on_page lib html_content base_url)
     <= List.length (candidates lib html_content)
  /\ (candidates lib html_content = [] ->
      find_audio_on_page lib html_content base_url = []).
Proof.
  assert (Hres := resolved_all lib html_content base_url).
  assert (Hp : Permutation (discovered lib html_content base_url)
                           (find_audio_on_page lib html_content base_url))
    by apply sort_by_key_perm.
  assert (Hlen : forall seen l, List.length (unique_from seen l) <= List.length l).
  { intros seen l. revert seen. induction l as [|r l IH]; intros seen; simpl; [lia|].
    destruct (existsb (String.eqb r) seen); simpl;
      [specialize (IH seen)|specialize (IH (r :: seen))]; lia. }
  split; [|split].
  - intros x. split.
    + intros H. apply (Permutation_in _ (Permutation_sym Hp)) in H.
      apply unique_from_In in H. destruct H as [H _]. rewrite Hres in H.
      apply in_map_iff in H. destruct H as [c [<- Hc]]. now exists c.
    + intros [c [Hc ->]]. apply (Permutation_in _ Hp).
      apply unique_from_In. split; [|tauto]. rewrite Hres. now apply in_map.
  - rewrite <- (Permutation_length Hp). unfold discovered.
    etransitivity; [apply Hlen|]. rewrite Hres, length_map. lia.
  - intros E. unfold find_audio_on_page, discovered. rewrite Hres, E. reflexivity.
Qed.

Lemma find_audio_on_page_exact_witness :
  In "http://host/dir/b.mp3"
     (find_audio_on_page Ex.lib Ex.page_ab "http://host/dir/page.html").
Proof.
  apply (proj2 (proj1 (find_audio_on_page_exact Ex.lib Ex.page_ab
                         "http://host/dir/page.html") "http://host/dir/b.mp3")).
  exists "b.mp3". split; [vm_compute; right; left; reflexivity|reflexivity].
Defined.

(** ** The file name of a [Content-Disposition] header *)

Lemma match_filename_at (x : string) :
  match_filename ("filename=" ++ x)
  = let g := Py.take_while (fun c => negb (c =? Py.newline_char)%char) x in
    if Py.nonempty g then Some g else None.
Proof.
  unfold match_filename.
  assert (Hp : String.prefix "filename=" ("filename=" ++ x) = true)
    by (apply prefix_spec; now exists x).
  rewrite Hp.
  replace (substring 9 (String.length ("filename=" ++ x) - 9) ("filename=" ++ x))
    with x; [reflexivity|].
  rewrite append_length. change (String.length "filename=") with 9.
  replace (9 + String.length x - 9) with (String.length x) by lia.
  rewrite (substring_skip "filename=" x). symmetry. apply substring_whole.
Qed.

Lemma findall_filename_from_none (s : string) :
  Py.contains "filename=" s = false ->
  forall skip, findall_filename_from skip s = [].
Proof.
  induction s as [|c s IH]; intros H skip; [reflexivity|].
  cbn [Py.contains] in H. apply orb_false_iff in H. destruct H as [Hp Hc].
  cbn [findall_filename_from]. destruct skip as [|k]; [|now apply IH].
  unfold match_filename. rewrite Hp. now apply IH.
Qed.

Lemma findall_filename_from_In (s : string) :
  forall skip g, In g (findall_filename_from skip s) ->
                 exists before s', s = (before ++ s')%string
                                   /\ match_filename s' = Some g.
Proof.
  induction s as [|c s IH]; intros skip g H; [contradiction|].
  assert (Hshift : forall k, In g (findall_filename_from k s) ->
                             exists before s', String c s = (before ++ s')%string
                                               /\ match_filename s' = Some g).
  { intros k Hk. destruct (IH k g Hk) as [before [s' [-> Hm]]].
    now exists (String c before), s'. }
  cbn [findall_filename_from] in H. destruct skip as [|k]; [|now apply (Hshift k)].
  destruct (match_filename (String c s)) as [g0|] eqn:E; [|now apply (Hshift 0)].
  destruct H as [<-|H]; [|now apply (Hshift _ H)].
  now exists "", (String c s).
Qed.

(** Before the first [f] nothing matches. *)
Lemma findall_filename_from_skip (pre s : string) :
  Py.has_char "f" pre = false ->
  findall_filename_from 0 (pre ++ s) = findall_filename_from 0 s.
Proof.
  induction pre as [|c pre IH]; intros H; [reflexivity|].
  simpl in H. apply orb_false_iff in H. destruct H as [Hc Hpre].
  change ((String c pre ++ s)%string) with (String c (pre ++ s)).
  cbn [findall_filename_from].
  assert (Hm : match_filename (String c (pre ++ s)) = None).
  { unfold match_filename. cbn [String.prefix].
    destruct (ascii_dec "f" c) as [<-|_]; [discriminate Hc|reflexivity]. }
  rewrite Hm. now apply IH.
Qed.

Lemma take_while_line (f tail : string) :
  Py.has_char Py.newline_char f = false ->
  (tail = "" \/ exists rest, tail = String Py.newline_char rest) ->
  Py.take_while (fun c => negb (c =? Py.newline_char)%char) (f ++ tail) = f.
Proof.
  intros Hf Ht. induction f as [|c f IH].
  - destruct Ht as [->|[rest ->]]; [reflexivity|].
    cbn [append Py.take_while]. now rewrite Ascii.eqb_refl.
  - cbn [Py.has_char] in Hf. apply orb_false_iff in Hf. destruct Hf as [Hc Hf].
    change ((String c f ++ tail)%string) with (String c (f ++ tail)).
    cbn [Py.take_while]. rewrite Ascii.eqb_sym, Hc. cbn [negb]. now rewrite IH.
Qed.

Lemma has_char_lstrip (c x : ascii) (s : string) :
  Py.has_char c s = false -> Py.has_char c (Py.lstrip x s) = false.
Proof.
  induction s as [|d s IH]; intros H; [reflexivity|]. simpl.
  destruct (x =? d)%char; [|exact H].
  simpl in H. apply orb_false_iff in H. now apply IH.
Qed.

Lemma has_char_rstrip (c x : ascii) (s : string) :
  Py.has_char c s = false -> Py.has_char c (Py.rstrip x s) = false.
Proof.
  induction s as [|d s IH]; intros H; [reflexivity|].
  simpl in H. apply orb_false_iff in H. destruct H as [Hd Hs].
  specialize (IH Hs). simpl. destruct (Py.rstrip x s) as [|e r].
  - destruct (x =? d)%char; simpl; [reflexivity|now rewrite Hd].
  - change (Py.has_char c (String d (String e r)))
      with ((c =? d)%char || Py.has_char c (String e r)).
    now rewrite Hd, IH.
Qed.

Lemma has_char_strip (c x : ascii) (s : string) :
  Py.has_char c s = false -> Py.has_char c (Py.strip x s) = false.
Proof. intros H. unfold Py.strip. now apply has_char_rstrip, has_char_lstrip. Qed.

Lemma lstrip_id (x : ascii) (s : string) :
  Py.has_char x s = false -> Py.lstrip x s = s.
Proof.
  destruct s as [|d s]; [reflexivity|]. simpl. intros H.
  apply orb_false_iff in H. destruct H as [-> _]. reflexivity.
Qed.

Lemma rstrip_id (x : ascii) (s : string) :
  Py.has_char x s = false -> Py.rstrip x s = s.
Proof.
  induction s as [|d s IH]; intros H; [reflexivity|].
  simpl in H. apply orb_false_iff in H. destruct H as [Hd Hs].
  simpl. rewrite (IH Hs), Hd. now destruct s.
Qed.

Lemma strip_id (x : ascii) (s : string) :
  Py.has_char x s = false -> Py.strip x s = s.
Proof. intros H. unfold Py.strip. now rewrite (lstrip_id x s H), rstrip_id. Qed.

Lemma rstrip_quoted (x : ascii) (s : string) :
  Py.has_char x s = false -> Py.rstrip x (s ++ String x "") = s.
Proof.
  induction s as [|d s IH]; intros H.
  - simpl. now rewrite Ascii.eqb_refl.
  - simpl in H. apply orb_false_iff in H. destruct H as [Hd Hs].
    change ((String d s ++ String x "")%string) with (String d (s ++ String x "")).
    cbn [Py.rstrip]. rewrite (IH Hs), Hd. now destruct s.
Qed.

Lemma strip_quoted (x : ascii) (s : string) :
  Py.has_char x s = false ->
  Py.strip x (String x (s ++ String x "")) = s.
Proof.
  intros H. unfold Py.strip. cbn [Py.lstrip]. rewrite Ascii.eqb_refl.
  destruct s as [|d s].
  - simpl. now rewrite Ascii.eqb_refl.
  - assert (Hd : (x =? d)%char = false)
      by (simpl in H; now apply orb_false_iff in H).
    change ((String d s ++ String x "")%string) with (String d (s ++ String x "")).
    cbn [Py.lstrip]. rewrite Hd.
    change (String d (s ++ String x "")) with ((String d s ++ String x "")%string).
    now apply rstrip_quoted.
Qed.

(** The name is what follows the first [filename=] up to the end of its
    line, less the quotes at its two ends. *)
Lemma get_filename_from_cd_line (pre f tail : string) :
  Py.has_char "f" pre = false ->
  f <> "" ->
  Py.has_char Py.newline_char f = false ->
  (tail = "" \/ exists rest, tail = String Py.newline_char rest) ->
  get_filename_from_cd (Some (pre ++ "filename=" ++ f ++ tail)%string)
  = Some (Py.strip Py.squote_char (Py.strip Py.dquote_char f)).
Proof.
  intros Hpre Hne Hnl Htail. unfold get_filename_from_cd.
  assert (Ht : Py.truthy (Some (pre ++ "filename=" ++ f ++ tail)%string) = true).
  { destruct pre; reflexivity. }
  rewrite Ht. cbn [negb]. unfold findall_filename.
  rewrite findall_filename_from_skip by exact Hpre.
  change (("filename=" ++ f ++ tail)%string)
    with (String "f" ("ilename=" ++ f ++ tail)).
  cbn [findall_filename_from].
  change (String "f" ("ilename=" ++ f ++ tail))
    with (("filename=" ++ (f ++ tail))%string).
  rewrite match_filename_at. cbn zeta.
  rewrite take_while_line by assumption.
  destruct f as [|c f]; [congruence|]. reflexivity.
Qed.

(** X15.  [get_filename_from_cd] gives [None] for a header without
    [filename=]; a name it gives comes from a header that holds
    [filename=] and has no line break in it.  With no [f] before
    [filename=], the name is the rest of that line less the quotes at its
    ends: a name in double quotes, in single quotes or bare comes back as
    it is, and when a parameter follows a quoted name the closing quote
    and the parameter stay in the name. *)
Theorem get_filename_from_cd_reads_line :
  (forall c, Py.contains "filename=" c = false ->
             get_filename_from_cd (Some c) = None)
  /\ (forall cd n, get_filename_from_cd cd = Some n ->
                   exists c, cd = Some c
                             /\ Py.contains "filename=" c = true
                             /\ Py.has_char Py.newline_char n = false)
  /\ (forall pre n,
         Py.has_char "f" pre = false ->
         n <> "" ->
         Py.has_char Py.newline_char n = false ->
         Py.has_char Py.dquote_char n = false ->
         Py.has_char Py.squote_char n = false ->
         let dq := String Py.dquote_char "" in
         let sq := String Py.squote_char "" in
         get_filename_from_cd (Some (pre ++ "filename=" ++ n)%string) = Some n
         /\ get_filename_from_cd
              (Some (pre ++ "filename=" ++ dq ++ n ++ dq)%string) = Some n
         /\ get_filename_from_cd
              (Some (pre ++ "filename=" ++ sq ++ n ++ sq)%string) = Some n
         /\ forall param,
             param <> "" ->
             Py.has_char Py.newline_char param = false ->
             Py.has_char Py.dquote_char param = false ->
             Py.has_char Py.squote_char param = false ->
             get_filename_from_cd
               (Some (pre ++ "filename=" ++ dq ++ n ++ dq ++ param)%string)
             = Some (n ++ dq ++ param)%string).
Proof.
  split; [|split].
  - intros c H. unfold get_filename_from_cd.
    destruct (negb (Py.truthy (Some c))); [reflexivity|].
    unfold findall_filename. now rewrite findall_filename_from_none.
  - intros cd n H. unfold get_filename_from_cd in H.
    destruct cd as [c|]; [|discriminate]. exists c. split; [reflexivity|].
    destruct (negb (Py.truthy (Some c))); [discriminate|].
    destruct (findall_filename c) as [|g gs] eqn:E; [discriminate|].
    injection H as <-.
    assert (Hin : In g (findall_filename_from 0 c))
      by (unfold findall_filename in E; rewrite E; now left).
    apply findall_filename_from_In in Hin.
    destruct Hin as [before [s' [-> Hm]]]. split.
    + apply contains_spec. unfold match_filename in Hm.
      destruct (String.prefix "filename=" s') eqn:Ep; [|discriminate].
      apply prefix_spec in Ep. destruct Ep as [rest ->]. now exists before, rest.
    + apply has_char_strip, has_char_strip. unfold match_filename in Hm.
      destruct (String.prefix "filename=" s'); [|discriminate].
      destruct (Py.nonempty _); [|discriminate]. injection Hm as <-.
      destruct (Py.has_char Py.newline_char (Py.take_while _ _)) eqn:Eh;
        [|reflexivity].
      apply take_while_chars in Eh. now rewrite Ascii.eqb_refl in Eh.
  - intros pre n Hpre Hne Hnl Hdq Hsq dq sq.
    assert (Hq : forall x : ascii,
               x <> Py.newline_char ->
               Py.has_char Py.newline_char (String x (n ++ String x "")) = false).
    { intros x Hx. cbn [Py.has_char]. rewrite has_char_app, Hnl. cbn [Py.has_char].
      assert (Ex : (Py.newline_char =? x)%char = false)
        by (apply Ascii.eqb_neq; congruence).
      now rewrite Ex. }
    split; [|split; [|split]].
    + rewrite <- (append_nil_r n) at 1.
      rewrite (get_filename_from_cd_line pre n "") by auto.
      now rewrite (strip_id Py.dquote_char n Hdq), (strip_id Py.squote_char n Hsq).
    + change ((dq ++ n ++ dq)%string) with (String Py.dquote_char (n ++ dq)).
      rewrite <- (append_nil_r (String Py.dquote_char (n ++ dq))).
      rewrite (get_filename_from_cd_line pre _ "");
        [|exact Hpre|discriminate|apply Hq; discriminate|now left].
      unfold dq. rewrite (strip_quoted Py.dquote_char n Hdq).
      now rewrite (strip_id Py.squote_char n Hsq).
    + change ((sq ++ n ++ sq)%string) with (String Py.squote_char (n ++ sq)).
      rewrite <- (append_nil_r (String Py.squote_char (n ++ sq))).
      rewrite (get_filename_from_cd_line pre _ "");
        [|exact Hpre|discriminate|apply Hq; discriminate|now left].
      assert (Hd : Py.has_char Py.dquote_char (String Py.squote_char (n ++ sq)) = false).
      { cbn [Py.has_char]. unfold sq. rewrite has_char_app, Hdq. reflexivity. }
      rewrite (strip_id Py.dquote_char _ Hd). unfold sq.
      now rewrite (strip_quoted Py.squote_char n Hsq).
    + intros param Hp Hpnl Hpdq Hpsq.
      set (body := (n ++ dq ++ param)%string).
      change ((dq ++ body)%string) with (String Py.dquote_char body).
      rewrite <- (append_nil_r (String Py.dquote_char body)).
      assert (Hbnl : Py.has_char Py.newline_char body = false).
      { unfold body, dq. rewrite !has_char_app, Hnl, Hpnl. reflexivity. }
      rewrite (get_filename_from_cd_line pre _ "");
        [|exact Hpre|discriminate| |now left].
      2:{ cbn [Py.has_char]. now rewrite Hbnl. }
      assert (Hl : Py.lstrip Py.dquote_char (String Py.dquote_char body) = body).
      { cbn [Py.lstrip]. rewrite Ascii.eqb_refl. unfold body.
        destruct n as [|d n]; [congruence|].
        cbn [Py.has_char] in Hdq. apply orb_false_iff in Hdq. destruct Hdq as [Hd _].
        change (((String d n) ++ dq ++ param)%string)
          with (String d (n ++ dq ++ param)).
        cbn [Py.lstrip]. now rewrite Hd. }
      assert (Hr : Py.rstrip Py.dquote_char body = body).
      { unfold body, dq. clear -Hp Hpdq.
        assert (Hgen : forall a, Py.rstrip Py.dquote_char (a ++ param) = (a ++ param)%string).
        { induction a as [|d a IH].
          - now apply rstrip_id.
          - change ((String d a ++ param)%string) with (String d (a ++ param)).
            cbn [Py.rstrip]. rewrite IH.
            destruct (a ++ param)%string eqn:E; [|reflexivity].
            destruct a; [simpl in E; congruence|discriminate]. }
        rewrite <- append_assoc. apply Hgen. }
      unfold Py.strip at 2. rewrite Hl, Hr.
      (* a single quote stands nowhere in the name *)
      rewrite strip_id; [reflexivity|].
      unfold body, dq. rewrite !has_char_app, Hsq, Hpsq. reflexivity.
Qed.

Lemma get_filename_from_cd_reads_line_witness :
  get_filename_from_cd (Some "attachment; size=3") = None
  /\ get_filename_from_cd
       (Some ("attachment; " ++ "filename="
              ++ String Py.dquote_char "" ++ "song.mp3" ++ String Py.dquote_char "")%string)
     = Some "song.mp3"
  /\ get_filename_from_cd
       (Some ("attachment; " ++ "filename="
              ++ String Py.dquote_char "" ++ "song.mp3" ++ String Py.dquote_char ""
              ++ "; size=3")%string)
     = Some ("song.mp3" ++ String Py.dquote_char "" ++ "; size=3")%string.
Proof.
  destruct get_filename_from_cd_reads_line as [Hnone [_ Hname]].
  split; [apply Hnone; reflexivity|].
  destruct (Hname "attachment; " "song.mp3") as [_ [Hq [_ Hparam]]];
    try reflexivity; [discriminate|].
  split; [exact Hq|].
  apply Hparam; try reflexivity. discriminate.
Defined.

(** ** The script *)

Section Script.
Variable env : Env.

End Script.

